(** * supplier-sourcing-app: a shallow embedding of [server.js]

    The server has three parts: [buildQuery], which assembles the search
    query; [mapResultToSupplier], which annotates one raw search result;
    and the handler of [POST /api/search-suppliers], which calls the
    search provider once and maps what comes back.

    JavaScript strings are sequences of UTF-16 code units and are modelled
    as lists of code units ([N]).  Two library functions are not modelled
    and enter as parameters of the development:
    [String.prototype.toLowerCase] (its Unicode tables) and the WHATWG URL
    parser behind [new URL(s).hostname].  Everything proved inside the
    sections holds for every choice of the two.

    The handler is read twice.  [handler] takes a request body whose
    fields have their documented types; [handle] takes a body whose fields
    hold arbitrary JSON values, where building the query can throw before
    the credential is tested.  The conversions of non-string values to
    strings and numbers are parameters as well, and [handle_on_typed_body]
    shows that the two readings agree on typed bodies. *)

From Stdlib Require Import Ascii String.
From Stdlib Require Import List Bool NArith ZArith QArith Qround Floats Lia.
From Stdlib Require DecimalN.
Import ListNotations.

Local Open Scope N_scope.
Local Open Scope list_scope.

(** ** Strings *)

Definition jsstring := list N.

(** A string literal of the source, all of whose characters are ASCII. *)
Definition js (s : string) : jsstring :=
  map N_of_ascii (list_ascii_of_string s).

Fixpoint str_eqb (s t : jsstring) : bool :=
  match s, t with
  | [], [] => true
  | c :: s', d :: t' => (c =? d) && str_eqb s' t'
  | _, _ => false
  end.

(** ToBoolean on a string: only the empty string is falsy. *)
Definition truthy (s : jsstring) : bool :=
  match s with [] => false | _ :: _ => true end.

(** A property that may be [undefined]: [o || d]. *)
Definition or_else (o : option jsstring) (d : jsstring) : jsstring :=
  match o with
  | Some s => if truthy s then s else d
  | None => d
  end.

(** ToBoolean on a property that may be [undefined]. *)
Definition given (o : option jsstring) : bool :=
  match o with Some s => truthy s | None => false end.

Definition in_range (lo hi c : N) : bool := (lo <=? c) && (c <=? hi).

(** WhiteSpace and LineTerminator of ECMAScript: what [trim] strips and
    what [\s] matches. *)
Definition is_space (c : N) : bool :=
  in_range 9 13 c || (c =? 32) || (c =? 160) || (c =? 5760)
  || in_range 8192 8202 c || (c =? 8232) || (c =? 8233) || (c =? 8239)
  || (c =? 8287) || (c =? 12288) || (c =? 65279).

Definition is_lower (c : N) : bool := in_range 97 122 c.
Definition is_upper (c : N) : bool := in_range 65 90 c.
Definition is_digit (c : N) : bool := in_range 48 57 c.

Fixpoint dropWhile (p : N -> bool) (s : jsstring) : jsstring :=
  match s with
  | [] => []
  | c :: s' => if p c then dropWhile p s' else s
  end.

Fixpoint takeWhile (p : N -> bool) (s : jsstring) : jsstring :=
  match s with
  | [] => []
  | c :: s' => if p c then c :: takeWhile p s' else []
  end.

(** [String.prototype.trim]. *)
Definition trim (s : jsstring) : jsstring :=
  rev (dropWhile is_space (rev (dropWhile is_space s))).

Fixpoint startsWith (s k : jsstring) : bool :=
  match k, s with
  | [], _ => true
  | _ :: _, [] => false
  | c :: k', d :: s' => (c =? d) && startsWith s' k'
  end.

(** [String.prototype.includes]. *)
Fixpoint includes (s k : jsstring) : bool :=
  startsWith s k
  || match s with
     | [] => false
     | _ :: s' => includes s' k
     end.

(** [Array.prototype.join]. *)
Fixpoint join (sep : jsstring) (l : list jsstring) : jsstring :=
  match l with
  | [] => []
  | [s] => s
  | s :: l' => s ++ sep ++ join sep l'
  end.

(** Decimal digits of a number that holds a non-negative integer, as the
    template literals print it. *)
Fixpoint uint_units (d : Decimal.uint) : jsstring :=
  match d with
  | Decimal.Nil => []
  | Decimal.D0 d => 48 :: uint_units d
  | Decimal.D1 d => 49 :: uint_units d
  | Decimal.D2 d => 50 :: uint_units d
  | Decimal.D3 d => 51 :: uint_units d
  | Decimal.D4 d => 52 :: uint_units d
  | Decimal.D5 d => 53 :: uint_units d
  | Decimal.D6 d => 54 :: uint_units d
  | Decimal.D7 d => 55 :: uint_units d
  | Decimal.D8 d => 56 :: uint_units d
  | Decimal.D9 d => 57 :: uint_units d
  end.

Definition Number_toString (n : N) : jsstring := uint_units (N.to_uint n).

(** ** Completions: normal return or a thrown exception *)

Inductive exn : Type :=
| TypeError
| FetchError
| SyntaxError.

Inductive completion (A : Type) : Type :=
| Normal (a : A)
| Throw (e : exn).

Arguments Normal {A} a.
Arguments Throw {A} e.

Definition bind {A B : Type} (c : completion A) (k : A -> completion B)
  : completion B :=
  match c with
  | Normal a => k a
  | Throw e => Throw e
  end.

(** [try { c } catch (_) { h }] *)
Definition try_catch {A : Type} (c : completion A) (h : exn -> completion A)
  : completion A :=
  match c with
  | Normal a => Normal a
  | Throw e => h e
  end.

Notation "x <- c ;; k" := (bind c (fun x => k))
  (at level 61, c at next level, right associativity).

Fixpoint mapM {A B : Type} (f : A -> completion B) (l : list A)
  : completion (list B) :=
  match l with
  | [] => Normal []
  | a :: l' => b <- f a ;; bs <- mapM f l' ;; Normal (b :: bs)
  end.

(** ** buildQuery *)

Definition extraKeywords : list jsstring :=
  [js "supplier"; js "manufacturer"; js "vendor"; js "B2B"].

Definition buildQuery (requirements country certifications : option jsstring)
  : jsstring :=
  let base := trim (or_else requirements []) in
  let base := if truthy base then base else js "industrial supplier" in
  let base :=
    match certifications with
    | Some c => if truthy c then base ++ js " " ++ c else base
    | None => base
    end in
  let query := base ++ js " (" ++ join (js " OR ") extraKeywords ++ js ")" in
  match country with
  | Some c => if truthy c then query ++ js " in " ++ c else query
  | None => query
  end.

(** ** mapResultToSupplier *)

Record RawResultItem : Type := {
  item_link : option jsstring;
  item_url : option jsstring;
  item_title : option jsstring;
  item_snippet : option jsstring;
  item_description : option jsstring
}.

Record SupplierCandidate : Type := {
  name : jsstring;
  url : jsstring;
  displayLink : jsstring;
  countryHint : jsstring;
  description : jsstring;
  tags : list jsstring;
  sizeCategory : jsstring;
  employees : jsstring;
  turnover : jsstring;
  location : jsstring;
  locationDetail : jsstring;
  matchScore : Z;
  matchSummary : jsstring
}.

(** *** The location patterns

    The three patterns have the shape [/<literal> ([A-Za-z\s-]+)/i].
    Matching is leftmost; the class is greedy and nothing follows it, so
    the capture is the longest run of class characters after the literal.

    With the [i] flag and without the [u] flag a code unit above 127 is
    never canonicalized to one below 128, so against the ASCII literal and
    the ASCII letters of the class the comparison is plain ASCII case
    folding; no code unit has a white-space character as its upper case, so
    [\s] under [i] is [\s]. *)

Definition canonicalize (c : N) : N :=
  if is_lower c then c - 32 else c.

Fixpoint match_literal (lit s : jsstring) : option jsstring :=
  match lit, s with
  | [], _ => Some s
  | _ :: _, [] => None
  | c :: lit', d :: s' =>
      if canonicalize c =? canonicalize d then match_literal lit' s' else None
  end.

Definition location_class (c : N) : bool :=
  is_upper c || is_lower c || is_space c || (c =? 45).

(** A match attempt at the start of [s]: capture group 1, if any. *)
Definition match_here (lit s : jsstring) : option jsstring :=
  match match_literal lit s with
  | Some rest =>
      match takeWhile location_class rest with
      | [] => None
      | cap => Some cap
      end
  | None => None
  end.

(** [s.match(pattern)]: [Some m1] is a match array whose [m[1]] is [m1],
    [None] is [null]. *)
Fixpoint regex_match (lit s : jsstring) : option jsstring :=
  match match_here lit s with
  | Some cap => Some cap
  | None =>
      match s with
      | [] => None
      | _ :: s' => regex_match lit s'
      end
  end.

Definition locationPatterns : list jsstring :=
  [js "based in "; js "headquartered in "; js "located in "].

(** [a || b] on two match results. *)
Definition or_match (a b : option jsstring) : option jsstring :=
  match a with Some _ => a | None => b end.

(** The [for ... of] loop over the patterns, with its [break]; the state is
    the pair [(location, locationDetail)]. *)
Fixpoint location_loop (patterns : list jsstring) (snippet title : jsstring)
    (country : option jsstring) (st : jsstring * jsstring)
  : jsstring * jsstring :=
  match patterns with
  | [] => st
  | pattern :: rest =>
      let m := or_match (regex_match pattern snippet)
                        (regex_match pattern title) in
      match m with
      | Some m1 =>
          if truthy m1 then
            (trim m1 ++ match country with
                        | Some c => if truthy c then js ", " ++ c else []
                        | None => []
                        end,
             js "Appears to be located in " ++ trim m1
               ++ js " (from snippet/title).")
          else location_loop rest snippet title country st
      | None => location_loop rest snippet title country st
      end
  end.

(** *** Keywords of the requirement text *)

Definition is_separator (c : N) : bool := negb (is_lower c || is_digit c).

(** [s.split(/[^a-z0-9]+/)]: [cur] is the piece being read, reversed;
    [in_sep] says that the previous code unit belonged to a separator.  A
    separator at either end of the string leaves an empty piece there, and
    the empty string splits into one empty piece. *)
Fixpoint split_go (in_sep : bool) (cur : jsstring) (s : jsstring)
  : list jsstring :=
  match s with
  | [] => [rev cur]
  | c :: s' =>
      if is_separator c then
        if in_sep then split_go true cur s'
        else rev cur :: split_go true [] s'
      else split_go false (c :: cur) s'
  end.

Definition split_non_alnum (s : jsstring) : list jsstring :=
  split_go false [] s.

(** [Set.prototype.add] on the insertion-ordered contents of a Set. *)
Definition Set_add (contents : list jsstring) (x : jsstring) : list jsstring :=
  if existsb (str_eqb x) contents then contents else contents ++ [x].

(** [[...new Set(l)]] *)
Definition spread_new_Set (l : list jsstring) : list jsstring :=
  fold_left Set_add l [].

(** The Number that holds an array length. *)
Definition Number_of_length (n : nat) : float :=
  PrimFloat.of_uint63 (Uint63.of_Z (Z.of_nat n)).

(** [Math.round] on a finite double: the integer nearest to it, a tie going
    up.  The result is an integer-valued Number, kept as a [Z]. *)
Definition Math_round (x : float) : Z :=
  match Prim2SF x with
  | S754_finite s m e =>
      let v := if s then Z.neg m else Z.pos m in
      if (0 <=? e)%Z then (v * 2 ^ e)%Z
      else ((2 * v + 2 ^ (- e)) / 2 ^ (1 - e))%Z
  | _ => 0%Z
  end.

Definition en_dash : jsstring := [8211].

(** [item.link || item.url || ""] *)
Definition url_of (item : RawResultItem) : jsstring :=
  or_else (item_link item) (or_else (item_url item) []).

(** [item.snippet || item.description || ""] *)
Definition snippet_of (item : RawResultItem) : jsstring :=
  or_else (item_snippet item) (or_else (item_description item) []).

Section Mapper.

(** [String.prototype.toLowerCase]. *)
Variable toLowerCase : jsstring -> jsstring.

(** [new URL(s).hostname]; [None] when the constructor throws. *)
Variable URL_hostname : jsstring -> option jsstring.

Definition new_URL_hostname (s : jsstring) : completion jsstring :=
  match URL_hostname s with
  | Some h => Normal h
  | None => Throw TypeError
  end.

(** [let displayLink = "unknown";
     try { if (url) displayLink = new URL(url).hostname; } catch (_) {}] *)
Definition resolve_displayLink (url : jsstring) : completion jsstring :=
  let displayLink := js "unknown" in
  try_catch
    (if truthy url then new_URL_hostname url else Normal displayLink)
    (fun _ => Normal displayLink).

Definition push (tags : list jsstring) (t : jsstring) : list jsstring :=
  tags ++ [t].

Definition derive_tags (lowerSnippet lowerReq : jsstring) : list jsstring :=
  let tags := [] in
  let tags := if includes lowerSnippet (js "iso")
              then push tags (js "ISO / quality") else tags in
  let tags := if includes lowerSnippet (js "medical")
                 || includes lowerSnippet (js "pharma")
              then push tags (js "Life sciences") else tags in
  let tags := if includes lowerSnippet (js "plastic")
              then push tags (js "Plastics") else tags in
  let tags := if includes lowerSnippet (js "contract manufacturing")
              then push tags (js "Contract manufacturing") else tags in
  let tags := if includes lowerReq (js "prototype")
                 || includes lowerReq (js "prototyping")
              then push tags (js "Prototyping") else tags in
  push tags (js "Web result").

Definition size_small : jsstring := js "Small / SME (heuristic from snippet)".
Definition size_large : jsstring :=
  js "Large / multinational (heuristic from snippet)".
Definition size_default : jsstring :=
  js "Not stated " ++ en_dash ++ js " likely small/medium (verify manually)".
Definition employees_default : jsstring :=
  js "Unknown (check company website / LinkedIn)".
Definition employees_mentioned : jsstring :=
  js "Employees mentioned in snippet " ++ en_dash ++ js " confirm on website".

Definition derive_employees (lowerSnippet : jsstring) : jsstring :=
  let employees := employees_default in
  if includes lowerSnippet (js "employees") then employees_mentioned
  else employees.

Definition derive_sizeCategory (lowerSnippet : jsstring) : jsstring :=
  let sizeCategory := js "Unknown" in
  if includes lowerSnippet (js "small company")
     || includes lowerSnippet (js "sme")
     || includes lowerSnippet (js "family-owned")
     || includes lowerSnippet (js "family owned")
  then size_small
  else if includes lowerSnippet (js "multinational")
          || includes lowerSnippet (js "global leader")
          || includes lowerSnippet (js "worldwide")
          || includes lowerSnippet (js "thousands of employees")
  then size_large
  else if str_eqb sizeCategory (js "Unknown") then size_default
  else sizeCategory.

Definition derive_turnover (lowerSnippet : jsstring) : jsstring :=
  if includes lowerSnippet (js "million")
     || includes lowerSnippet (js "billion")
     || includes lowerSnippet (js "turnover")
     || includes lowerSnippet (js "revenue")
  then js "Turnover / revenue mentioned in snippet "
       ++ en_dash ++ js " check original page for figures."
  else js "Not stated " ++ en_dash
       ++ js " check company financials / About page.".

Definition location_default (country : option jsstring) : jsstring :=
  or_else country (js "Not specified").
Definition locationDetail_default : jsstring :=
  js "Location not clearly stated in search snippet.".

Definition derive_location (snippet title : jsstring)
    (country : option jsstring) : jsstring * jsstring :=
  location_loop locationPatterns snippet title country
    (location_default country, locationDetail_default).

Definition requirementKeywords (requirements : option jsstring)
  : list jsstring :=
  filter (fun w => (4 <=? List.length w)%nat)
    (split_non_alnum (toLowerCase (or_else requirements []))).

Definition uniqueKeywords (requirements : option jsstring) : list jsstring :=
  firstn 8 (spread_new_Set (requirementKeywords requirements)).

Definition matchedKeywords (requirements : option jsstring)
    (lowerSnippet : jsstring) : list jsstring :=
  filter (fun k => includes lowerSnippet k) (uniqueKeywords requirements).

Definition compute_matchScore (matched unique : list jsstring) : Z :=
  if (0 <? List.length unique)%nat then
    Math_round
      (PrimFloat.mul
         (PrimFloat.div (Number_of_length (List.length matched))
                        (Number_of_length (List.length unique)))
         (Number_of_length 100))
  else 0%Z.

Definition summary_no_keywords : jsstring :=
  js "No specific keywords provided " ++ en_dash
  ++ js " generic supplier match.".
Definition summary_zero_match : jsstring :=
  js "Snippet does not clearly mention your key terms " ++ en_dash
  ++ js " review manually for fit.".

Definition compute_matchSummary (matchScore : Z)
    (matched unique : list jsstring) : jsstring :=
  if (List.length unique =? 0)%nat then summary_no_keywords
  else if (matchScore =? 0)%Z then summary_zero_match
  else js "Matches approx. " ++ Number_toString (Z.to_N matchScore)
       ++ js "% of your key terms: " ++ join (js ", ") matched ++ js ".".

Definition mapResultToSupplier (item : RawResultItem)
    (country requirements : option jsstring)
  : completion SupplierCandidate :=
  let url := url_of item in
  displayLink <- resolve_displayLink url ;;
  let title := or_else (item_title item) displayLink in
  let snippet := snippet_of item in
  let lowerSnippet := toLowerCase snippet in
  let lowerReq := toLowerCase (or_else requirements []) in
  let tags := derive_tags lowerSnippet lowerReq in
  let employees := derive_employees lowerSnippet in
  let sizeCategory := derive_sizeCategory lowerSnippet in
  let turnover := derive_turnover lowerSnippet in
  let '(location, locationDetail) :=
    derive_location snippet title country in
  let unique := uniqueKeywords requirements in
  let matched := matchedKeywords requirements lowerSnippet in
  let matchScore := compute_matchScore matched unique in
  let matchSummary := compute_matchSummary matchScore matched unique in
  Normal {|
    name := title;
    url := url;
    displayLink := displayLink;
    countryHint := or_else country (js "Not specified");
    description := snippet;
    tags := tags;
    sizeCategory := sizeCategory;
    employees := employees;
    turnover := turnover;
    location := location;
    locationDetail := locationDetail;
    matchScore := matchScore;
    matchSummary := matchSummary
  |}.

End Mapper.

(** ** The handler of POST /api/search-suppliers *)

(** The request body with every field at its documented type, or absent.
    [maxResults] is a Number; a finite double is a rational, and comparison
    and [Math.min] are exact on doubles.  The handler on such a body is
    [handler]; [RequestBody] and [handle] below take a body whose fields
    hold arbitrary JSON values, and [handle_on_typed_body] shows that the
    two agree here. *)
Record SearchRequest : Type := {
  req_requirements : option jsstring;
  req_country : option jsstring;
  req_certifications : option jsstring;
  req_maxResults : option Q
}.

(** [req.body || {}] *)
Definition body_or_empty (body : option SearchRequest) : SearchRequest :=
  match body with
  | Some b => b
  | None => {| req_requirements := None; req_country := None;
               req_certifications := None; req_maxResults := None |}
  end.

Definition Number_truthy (x : Q) : bool := negb (Qeq_bool x 0).

Definition Math_min (a b : Q) : Q := if Qle_bool a b then a else b.

(** [maxResults && maxResults > 0 ? Math.min(maxResults, 20) : 10] *)
Definition resolve_num (maxResults : option Q) : Q :=
  match maxResults with
  | Some m =>
      if Number_truthy m && negb (Qle_bool m 0) then Math_min m (20 # 1)
      else 10 # 1
  | None => 10 # 1
  end.

Definition ToIntegerOrInfinity (x : Q) : Z := Z.quot (Qnum x) (Z.pos (Qden x)).

(** [l.slice(0, end)] *)
Definition slice0 {A : Type} (end_ : Q) (l : list A) : list A :=
  let len := Z.of_nat (List.length l) in
  let rel := ToIntegerOrInfinity end_ in
  let final := if (rel <? 0)%Z then Z.max (len + rel) 0 else Z.min rel len in
  firstn (Z.to_nat final) l.

(** The one outbound call: the parameters put on the query string of
    [https://serpapi.com/search.json]. *)
Record OutboundRequest : Type := {
  endpoint : jsstring;
  engine : jsstring;
  q : jsstring;
  api_key : jsstring;
  num : Q
}.

(** An element of [organic_results]: [null], or an object with the fields
    of a raw item. *)
Inductive ResultEntry : Type :=
| EntryNull
| EntryItem (item : RawResultItem).

(** The [organic_results] property of the parsed body: absent or falsy; a
    truthy value that is not an array; an array. *)
Inductive OrganicField : Type :=
| FieldFalsy
| FieldNotArray
| FieldArray (entries : list ResultEntry).

(** What [response.json()] gives: a rejection on a malformed body, [null],
    or a value with properties. *)
Inductive JsonBody : Type :=
| BodyMalformed
| BodyNull
| BodyObject (organic_results : OrganicField).

Record FetchResponse : Type := {
  status : N;
  body : JsonBody
}.

Inductive FetchOutcome : Type :=
| FetchRejects
| FetchResolves (response : FetchResponse).

Inductive ResponseBody : Type :=
| ErrorBody (error : jsstring)
| SuppliersBody (suppliers : list SupplierCandidate).

Record HttpResponse : Type := {
  res_status : N;
  res_body : ResponseBody
}.

(** [response.ok] *)
Definition response_ok (r : FetchResponse) : bool := in_range 200 299 (status r).

Definition await_fetch (o : FetchOutcome) : completion FetchResponse :=
  match o with
  | FetchRejects => Throw FetchError
  | FetchResolves r => Normal r
  end.

(** [(await response.json()).organic_results || []] followed by the lookup
    of [.filter] on it. *)
Definition organic_results_of (b : JsonBody) : completion (list ResultEntry) :=
  match b with
  | BodyMalformed => Throw SyntaxError
  | BodyNull => Throw TypeError
  | BodyObject FieldFalsy => Normal []
  | BodyObject FieldNotArray => Throw TypeError
  | BodyObject (FieldArray entries) => Normal entries
  end.

(** [(r) => r.link] *)
Definition entry_link (e : ResultEntry) : completion bool :=
  match e with
  | EntryNull => Throw TypeError
  | EntryItem item => Normal (given (item_link item))
  end.

Fixpoint filterM {A : Type} (p : A -> completion bool) (l : list A)
  : completion (list A) :=
  match l with
  | [] => Normal []
  | a :: l' =>
      b <- p a ;; rest <- filterM p l' ;;
      Normal (if b then a :: rest else rest)
  end.

Definition key_missing_message : jsstring :=
  js "SerpAPI key not configured on server.".
Definition internal_error_message : jsstring := js "Internal server error".
Definition upstream_error_message (upstream_status : N) : jsstring :=
  js "SerpAPI HTTP error " ++ Number_toString upstream_status.

(** [new URLSearchParams({ engine, q, api_key, num })] on the fixed
    endpoint. *)
Definition search_request (key : option jsstring) (query : jsstring) (n : Q)
  : OutboundRequest :=
  {| endpoint := js "https://serpapi.com/search.json";
     engine := js "google";
     q := query;
     api_key := or_else key [];
     num := n |}.

Section Handler.

Variable toLowerCase : jsstring -> jsstring.
Variable URL_hostname : jsstring -> option jsstring.

(** [process.env.SERPAPI_KEY] *)
Variable SERP_API_KEY : option jsstring.

(** The provider, as seen through [fetch]. *)
Variable fetch : OutboundRequest -> FetchOutcome.

Definition map_entry (country requirements : option jsstring)
    (e : ResultEntry) : completion SupplierCandidate :=
  match e with
  | EntryNull => Throw TypeError
  | EntryItem item =>
      mapResultToSupplier toLowerCase URL_hostname item country requirements
  end.

(** The body of the [try] block, with the outbound requests it issued. *)
Definition handler_try (req_body : option SearchRequest)
  : list OutboundRequest * completion HttpResponse :=
  let b := body_or_empty req_body in
  let requirements := req_requirements b in
  let country := req_country b in
  let query := buildQuery requirements country (req_certifications b) in
  let num := resolve_num (req_maxResults b) in
  if negb (given SERP_API_KEY) then
    ([], Normal {| res_status := 500;
                   res_body := ErrorBody key_missing_message |})
  else
    let request := search_request SERP_API_KEY query num in
    ([request],
     response <- await_fetch (fetch request) ;;
     if negb (response_ok response) then
       Normal {| res_status := 502;
                 res_body := ErrorBody
                               (upstream_error_message (status response)) |}
     else
       results <- organic_results_of (body response) ;;
       kept <- filterM entry_link results ;;
       suppliers <- mapM (map_entry country requirements)
                         (slice0 num kept) ;;
       Normal {| res_status := 200; res_body := SuppliersBody suppliers |}).

(** The handler: the [try] block and its [catch]. *)
Definition handler (req_body : option SearchRequest)
  : list OutboundRequest * HttpResponse :=
  let '(sent, c) := handler_try req_body in
  (sent,
   match c with
   | Normal r => r
   | Throw _ => {| res_status := 500;
                   res_body := ErrorBody internal_error_message |}
   end).

End Handler.

(** ** The keyword score in the words of the specification

    Alphanumeric means an ASCII letter or digit.  The tokens of a text are
    its maximal non-empty runs of alphanumeric characters. *)

Definition is_alnum (c : N) : bool := is_lower c || is_upper c || is_digit c.

Fixpoint tokens_go (cur : jsstring) (s : jsstring) : list jsstring :=
  match s with
  | [] => match cur with [] => [] | _ :: _ => [rev cur] end
  | c :: s' =>
      if is_alnum c then tokens_go (c :: cur) s'
      else match cur with
           | [] => tokens_go [] s'
           | _ :: _ => rev cur :: tokens_go [] s'
           end
  end.

Definition tokens (s : jsstring) : list jsstring := tokens_go [] s.

(** Keep an element when it was not seen before. *)
Fixpoint dedupe_seen (seen l : list jsstring) : list jsstring :=
  match l with
  | [] => []
  | x :: l' =>
      if existsb (str_eqb x) seen then dedupe_seen seen l'
      else x :: dedupe_seen (x :: seen) l'
  end.

Definition spec_uniqueKeywords (lowerReq : jsstring) : list jsstring :=
  firstn 8
    (dedupe_seen []
       (filter (fun w => (4 <=? List.length w)%nat) (tokens lowerReq))).

Definition spec_matchedKeywords (unique : list jsstring)
    (lowerSnippet : jsstring) : list jsstring :=
  filter (fun k => includes lowerSnippet k) unique.

(** The integer nearest to [a / b] for [b > 0], a tie going up. *)
Definition round_ratio (a b : Z) : Z := ((2 * a + b) / (2 * b))%Z.

Definition spec_matchScore (matched unique : nat) : Z :=
  if (unique =? 0)%nat then 0%Z
  else round_ratio (100 * Z.of_nat matched) (Z.of_nat unique).

(** ** The location rule in the words of the specification: the capture of
    the first pattern, in order, that matches the snippet or else the
    title. *)
Fixpoint first_capture (patterns : list jsstring) (snippet title : jsstring)
  : option jsstring :=
  match patterns with
  | [] => None
  | p :: rest =>
      match regex_match p snippet with
      | Some cap => Some cap
      | None =>
          match regex_match p title with
          | Some cap => Some cap
          | None => first_capture rest snippet title
          end
      end
  end.

Definition country_suffix (country : option jsstring) : jsstring :=
  match country with
  | Some c => if truthy c then js ", " ++ c else []
  | None => []
  end.

(** ** Instances for worked examples *)

(** [toLowerCase] on strings of ASCII code units. *)
Definition toLowerCase_ascii (s : jsstring) : jsstring :=
  map (fun c => if is_upper c then c + 32 else c) s.

Definition strip_prefix (p s : jsstring) : option jsstring :=
  if startsWith s p then Some (skipn (List.length p) s) else None.

(** The hostname of a plain [http://host/...] or [https://host/...] URL
    with an ASCII host; every other string is refused. *)
Definition hostname_http (s : jsstring) : option jsstring :=
  match or_match (strip_prefix (js "https://") s)
                 (strip_prefix (js "http://") s) with
  | Some rest =>
      match takeWhile (fun c => negb ((c =? 47) || (c =? 63) || (c =? 35)
                                      || (c =? 58) || (c =? 64))) rest with
      | [] => None
      | h => Some (toLowerCase_ascii h)
      end
  | None => None
  end.

Definition mapper_ascii := mapResultToSupplier toLowerCase_ascii hostname_http.

Definition blank_item : RawResultItem :=
  {| item_link := None; item_url := None; item_title := None;
     item_snippet := None; item_description := None |}.

Definition acme_item : RawResultItem :=
  {| item_link := Some (js "https://acme.example.com/x");
     item_url := None;
     item_title := Some (js "Acme Plastics");
     item_snippet :=
       Some (js "ISO certified plastic manufacturer, family-owned, based in Ohio");
     item_description := None |}.

Definition ohio_item : RawResultItem :=
  {| item_link := Some (js "https://ohio.example.com/");
     item_url := None;
     item_title := Some (js "Ohio Tooling");
     item_snippet := Some (js "Tooling supplier based in Ohio (USA)");
     item_description := None |}.

Definition staff_item : RawResultItem :=
  {| item_link := Some (js "https://staff.example.com/");
     item_url := None;
     item_title := Some (js "Staff Works");
     item_snippet := Some (js "Employees: 120");
     item_description := None |}.

Definition nolink_item : RawResultItem :=
  {| item_link := None;
     item_url := Some (js "https://nolink.example.com/");
     item_title := Some (js "No link");
     item_snippet := Some (js "plastic parts");
     item_description := None |}.

Definition example_request : SearchRequest :=
  {| req_requirements := Some (js "plastic prototype parts");
     req_country := Some (js "USA");
     req_certifications := Some (js "ISO 9001");
     req_maxResults := Some (2 # 1) |}.

Definition example_key : option jsstring := Some (js "secret").

Definition provider_ok (_ : OutboundRequest) : FetchOutcome :=
  FetchResolves
    {| status := 200;
       body := BodyObject
                 (FieldArray [EntryItem acme_item; EntryItem nolink_item;
                              EntryItem ohio_item; EntryItem staff_item]) |}.

Definition provider_503 (_ : OutboundRequest) : FetchOutcome :=
  FetchResolves {| status := 503; body := BodyMalformed |}.

Definition provider_down (_ : OutboundRequest) : FetchOutcome := FetchRejects.

Definition provider_no_results (_ : OutboundRequest) : FetchOutcome :=
  FetchResolves {| status := 200; body := BodyObject FieldFalsy |}.

Definition provider_null_entry (_ : OutboundRequest) : FetchOutcome :=
  FetchResolves
    {| status := 200;
       body := BodyObject (FieldArray [EntryItem acme_item; EntryNull]) |}.

Definition handler_ascii := handler toLowerCase_ascii hostname_http.

Definition example_suppliers : list SupplierCandidate :=
  match res_body (snd (handler_ascii example_key provider_ok
                         (Some example_request))) with
  | SuppliersBody l => l
  | ErrorBody _ => []
  end.


(** The pieces of a built query, as the specification lists them. *)
Definition role_clause : jsstring :=
  js " (supplier OR manufacturer OR vendor OR B2B)".

Definition certifications_clause (certifications : option jsstring)
  : jsstring :=
  match certifications with
  | Some c => if truthy c then js " " ++ c else []
  | None => []
  end.

Definition country_clause (country : option jsstring) : jsstring :=
  match country with
  | Some c => if truthy c then js " in " ++ c else []
  | None => []
  end.

(** The signal words of the size heuristic. *)
Definition small_signals : list jsstring :=
  [js "small company"; js "sme"; js "family-owned"; js "family owned"].

Definition large_signals : list jsstring :=
  [js "multinational"; js "global leader"; js "worldwide";
   js "thousands of employees"].

(** The request the handler sends for a given body. *)
Definition request_of (key : option jsstring) (req_body : option SearchRequest)
  : OutboundRequest :=
  let b := body_or_empty req_body in
  search_request key
    (buildQuery (req_requirements b) (req_country b) (req_certifications b))
    (resolve_num (req_maxResults b)).

Definition has_link (item : RawResultItem) : bool := given (item_link item).

Definition error_response (code : N) (message : jsstring) : HttpResponse :=
  {| res_status := code; res_body := ErrorBody message |}.


Arguments js : simpl never.

Definition giant_item : RawResultItem :=
  {| item_link := Some (js "https://giant.example.com/");
     item_url := None;
     item_title := Some (js "Giant Corp");
     item_snippet := Some (js "Thousands of Employees in 40 countries");
     item_description := None |}.

(** ** Vocabulary for the further properties *)

(** The six tags, in the order the mapper pushes them. *)
Definition known_tags : list jsstring :=
  [js "ISO / quality"; js "Life sciences"; js "Plastics";
   js "Contract manufacturing"; js "Prototyping"; js "Web result"].

(** [l] is [m] with some elements left out, order kept. *)
Inductive subsequence : list jsstring -> list jsstring -> Prop :=
| subsequence_nil : subsequence [] []
| subsequence_keep x l m : subsequence l m -> subsequence (x :: l) (x :: m)
| subsequence_skip x l m : subsequence l m -> subsequence l (x :: m).

Definition turnover_signals : list jsstring :=
  [js "million"; js "billion"; js "turnover"; js "revenue"].

Definition turnover_mentioned : jsstring :=
  js "Turnover / revenue mentioned in snippet " ++ en_dash
  ++ js " check original page for figures.".

Definition turnover_default : jsstring :=
  js "Not stated " ++ en_dash ++ js " check company financials / About page.".

(** A code unit that [/[^a-z0-9]+/] does not treat as a separator. *)
Definition keyword_char (c : N) : bool := is_lower c || is_digit c.

(** A string that neither starts nor ends with white space. *)
Definition trimmed (s : jsstring) : Prop :=
  match s with
  | [] => True
  | c :: _ => is_space c = false /\ is_space (last s 0) = false
  end.

(** ** The handler on an arbitrary request body

    [express.json()] hands the handler whatever JSON the client sent: a
    field of the body may hold a value of any JSON type.  The definitions
    above take the fields at their documented types; the ones below follow
    the same source lines on every value, where a method missing on a
    non-string or a failing conversion throws. *)

(** A Number: JSON.parse gives finite doubles and, on overflow, the
    infinities; conversions can give NaN. *)
#[local] Unset Elimination Schemes.

Inductive JsNum : Type :=
| NaN
| NegInfinity
| PosInfinity
| Finite (x : Q).

Inductive JsValue : Type :=
| JsUndefined
| JsNull
| JsBool (b : bool)
| JsNumber (x : JsNum)
| JsString (s : jsstring)
| JsArray (elements : list JsValue)
| JsObject (properties : list (jsstring * JsValue)).

#[local] Set Elimination Schemes.

Definition ToBoolean (v : JsValue) : bool :=
  match v with
  | JsUndefined | JsNull => false
  | JsBool b => b
  | JsNumber NaN => false
  | JsNumber (Finite x) => negb (Qeq_bool x 0)
  | JsNumber NegInfinity | JsNumber PosInfinity => true
  | JsString s => truthy s
  | JsArray _ | JsObject _ => true
  end.

(** [v || d] for a string default. *)
Definition or_value (v : JsValue) (d : jsstring) : JsValue :=
  if ToBoolean v then v else JsString d.

(** A value read as a string on which a String method is called: the
    method is missing on every other value, and the call throws. *)
Definition string_receiver (v : JsValue) : completion jsstring :=
  match v with
  | JsString s => Normal s
  | _ => Throw TypeError
  end.

(** The value of a field that holds its documented type, or is absent. *)
Definition value_of_string (o : option jsstring) : JsValue :=
  match o with
  | Some s => JsString s
  | None => JsUndefined
  end.

Definition value_of_number (o : option Q) : JsValue :=
  match o with
  | Some x => JsNumber (Finite x)
  | None => JsUndefined
  end.

Record RequestBody : Type := {
  body_requirements : JsValue;
  body_country : JsValue;
  body_certifications : JsValue;
  body_maxResults : JsValue
}.

Definition body_of_request (r : SearchRequest) : RequestBody :=
  {| body_requirements := value_of_string (req_requirements r);
     body_country := value_of_string (req_country r);
     body_certifications := value_of_string (req_certifications r);
     body_maxResults := value_of_number (req_maxResults r) |}.

(** [req.body || {}] *)
Definition fields_or_empty (req_body : option RequestBody) : RequestBody :=
  match req_body with
  | Some b => b
  | None => {| body_requirements := JsUndefined; body_country := JsUndefined;
               body_certifications := JsUndefined;
               body_maxResults := JsUndefined |}
  end.

(** The supplier record as it is serialized: [countryHint] and [location]
    hold the request's [country] value itself when that is how the code
    fills them. *)
Record SupplierJson : Type := {
  json_name : jsstring;
  json_url : jsstring;
  json_displayLink : jsstring;
  json_countryHint : JsValue;
  json_description : jsstring;
  json_tags : list jsstring;
  json_sizeCategory : jsstring;
  json_employees : jsstring;
  json_turnover : jsstring;
  json_location : JsValue;
  json_locationDetail : jsstring;
  json_matchScore : Z;
  json_matchSummary : jsstring
}.

Definition supplier_json (s : SupplierCandidate) : SupplierJson :=
  {| json_name := name s;
     json_url := url s;
     json_displayLink := displayLink s;
     json_countryHint := JsString (countryHint s);
     json_description := description s;
     json_tags := tags s;
     json_sizeCategory := sizeCategory s;
     json_employees := employees s;
     json_turnover := turnover s;
     json_location := JsString (location s);
     json_locationDetail := locationDetail s;
     json_matchScore := matchScore s;
     json_matchSummary := matchSummary s |}.

Inductive JsonBodyOut : Type :=
| ErrorJson (error : jsstring)
| SuppliersJson (suppliers : list SupplierJson).

Record JsonResponse : Type := {
  out_status : N;
  out_body : JsonBodyOut
}.

Definition error_json (code : N) (message : jsstring) : JsonResponse :=
  {| out_status := code; out_body := ErrorJson message |}.

Definition response_json (r : HttpResponse) : JsonResponse :=
  {| out_status := res_status r;
     out_body := match res_body r with
                 | ErrorBody m => ErrorJson m
                 | SuppliersBody l => SuppliersJson (map supplier_json l)
                 end |}.

Section Coercions.

(** Number::toString. *)
Variable NumberToString : JsNum -> jsstring.

(** StringToNumber. *)
Variable StringToNumber : jsstring -> JsNum.

(** ToString on an array or an object: ToPrimitive, then ToString of the
    primitive.  On a value parsed from JSON an own property is never
    callable, so the string, default and number hints all end in the same
    inherited [toString], or throw when an own property hides it. *)
Variable ObjectToString : JsValue -> completion jsstring.

Definition ToString (v : JsValue) : completion jsstring :=
  match v with
  | JsUndefined => Normal (js "undefined")
  | JsNull => Normal (js "null")
  | JsBool true => Normal (js "true")
  | JsBool false => Normal (js "false")
  | JsNumber x => Normal (NumberToString x)
  | JsString s => Normal s
  | JsArray _ | JsObject _ => ObjectToString v
  end.

Definition ToNumber (v : JsValue) : completion JsNum :=
  match v with
  | JsUndefined => Normal NaN
  | JsNull => Normal (Finite 0)
  | JsBool true => Normal (Finite 1)
  | JsBool false => Normal (Finite 0)
  | JsNumber x => Normal x
  | JsString s => Normal (StringToNumber s)
  | JsArray _ | JsObject _ =>
      s <- ObjectToString v ;; Normal (StringToNumber s)
  end.

(** [buildQuery] on arbitrary values. *)
Definition buildQuery_dyn (requirements country certifications : JsValue)
  : completion jsstring :=
  (* let base = (requirements || "").trim(); *)
  text <- string_receiver (or_value requirements []) ;;
  let base := trim text in
  let base := if truthy base then base else js "industrial supplier" in
  (* if (certifications) base += " " + certifications; *)
  base <- (if ToBoolean certifications
           then c <- ToString certifications ;; Normal (base ++ js " " ++ c)
           else Normal base) ;;
  let query := base ++ js " (" ++ join (js " OR ") extraKeywords ++ js ")" in
  (* if (country) query += ` in ${country}`; *)
  if ToBoolean country
  then c <- ToString country ;; Normal (query ++ js " in " ++ c)
  else Normal query.

(** [maxResults && maxResults > 0 ? Math.min(maxResults, 20) : 10] on an
    arbitrary value.  The comparison and [Math.min] both convert the value
    to a Number, with the same result; NaN and -Infinity fail the
    comparison, and [Math.min(Infinity, 20)] is 20. *)
Definition resolve_num_dyn (maxResults : JsValue) : completion Q :=
  if ToBoolean maxResults then
    x <- ToNumber maxResults ;;
    match x with
    | Finite m =>
        Normal (if negb (Qle_bool m 0) then Math_min m (20 # 1) else 10 # 1)
    | PosInfinity => Normal (20 # 1)
    | NegInfinity | NaN => Normal (10 # 1)
    end
  else Normal (10 # 1).

(** [country ? `, ${country}` : ""] *)
Definition country_suffix_dyn (country : JsValue) : completion jsstring :=
  if ToBoolean country
  then c <- ToString country ;; Normal (js ", " ++ c)
  else Normal [].

(** The loop over the location patterns, with [country] an arbitrary
    value. *)
Fixpoint location_loop_dyn (patterns : list jsstring)
    (snippet title : jsstring) (country : JsValue)
    (st : JsValue * jsstring) : completion (JsValue * jsstring) :=
  match patterns with
  | [] => Normal st
  | pattern :: rest =>
      let m := or_match (regex_match pattern snippet)
                        (regex_match pattern title) in
      match m with
      | Some m1 =>
          if truthy m1 then
            suffix <- country_suffix_dyn country ;;
            Normal (JsString (trim m1 ++ suffix),
                    js "Appears to be located in " ++ trim m1
                      ++ js " (from snippet/title).")
          else location_loop_dyn rest snippet title country st
      | None => location_loop_dyn rest snippet title country st
      end
  end.

Variable toLowerCase : jsstring -> jsstring.
Variable URL_hostname : jsstring -> option jsstring.

(** [mapResultToSupplier] with [country] and [requirements] arbitrary
    values. *)
Definition mapResultToSupplier_dyn (item : RawResultItem)
    (country requirements : JsValue) : completion SupplierJson :=
  let url := url_of item in
  displayLink <- resolve_displayLink URL_hostname url ;;
  let title := or_else (item_title item) displayLink in
  let snippet := snippet_of item in
  let lowerSnippet := toLowerCase snippet in
  (* const lowerReq = (requirements || "").toLowerCase(); *)
  reqText <- string_receiver (or_value requirements []) ;;
  let lowerReq := toLowerCase reqText in
  let tags := derive_tags lowerSnippet lowerReq in
  let employees := derive_employees lowerSnippet in
  let sizeCategory := derive_sizeCategory lowerSnippet in
  let turnover := derive_turnover lowerSnippet in
  st <- location_loop_dyn locationPatterns snippet title country
          (or_value country (js "Not specified"), locationDetail_default) ;;
  let '(location, locationDetail) := st in
  let unique := uniqueKeywords toLowerCase (Some reqText) in
  let matched := matchedKeywords toLowerCase (Some reqText) lowerSnippet in
  let matchScore := compute_matchScore matched unique in
  let matchSummary := compute_matchSummary matchScore matched unique in
  Normal {|
    json_name := title;
    json_url := url;
    json_displayLink := displayLink;
    json_countryHint := or_value country (js "Not specified");
    json_description := snippet;
    json_tags := tags;
    json_sizeCategory := sizeCategory;
    json_employees := employees;
    json_turnover := turnover;
    json_location := location;
    json_locationDetail := locationDetail;
    json_matchScore := matchScore;
    json_matchSummary := matchSummary
  |}.

Definition map_entry_dyn (country requirements : JsValue) (e : ResultEntry)
  : completion SupplierJson :=
  match e with
  | EntryNull => Throw TypeError
  | EntryItem item => mapResultToSupplier_dyn item country requirements
  end.

Variable SERP_API_KEY : option jsstring.
Variable fetch : OutboundRequest -> FetchOutcome.

(** The body of the handler's [try] block on an arbitrary request body,
    with the outbound requests it issued.  The query and the count are
    computed before the credential is looked at. *)
Definition handle_try (req_body : option RequestBody)
  : list OutboundRequest * completion JsonResponse :=
  let b := fields_or_empty req_body in
  let requirements := body_requirements b in
  let country := body_country b in
  match buildQuery_dyn requirements country (body_certifications b) with
  | Throw e => ([], Throw e)
  | Normal query =>
      match resolve_num_dyn (body_maxResults b) with
      | Throw e => ([], Throw e)
      | Normal num =>
          if negb (given SERP_API_KEY) then
            ([], Normal (error_json 500 key_missing_message))
          else
            let request := search_request SERP_API_KEY query num in
            ([request],
             response <- await_fetch (fetch request) ;;
             if negb (response_ok response) then
               Normal (error_json 502
                         (upstream_error_message (status response)))
             else
               results <- organic_results_of (body response) ;;
               kept <- filterM entry_link results ;;
               suppliers <- mapM (map_entry_dyn country requirements)
                                 (slice0 num kept) ;;
               Normal {| out_status := 200;
                         out_body := SuppliersJson suppliers |})
      end
  end.

(** The handler on an arbitrary request body: the [try] block and its
    [catch]. *)
Definition handle (req_body : option RequestBody)
  : list OutboundRequest * JsonResponse :=
  let '(sent, c) := handle_try req_body in
  (sent,
   match c with
   | Normal r => r
   | Throw _ => error_json 500 internal_error_message
   end).

(** Reading the request: the query and the count, when neither throws. *)
Definition read_request (req_body : option RequestBody)
  : completion (jsstring * Q) :=
  let b := fields_or_empty req_body in
  query <- buildQuery_dyn (body_requirements b) (body_country b)
             (body_certifications b) ;;
  n <- resolve_num_dyn (body_maxResults b) ;;
  Normal (query, n).

End Coercions.

(** Coercions for the worked examples, none of which converts a number, an
    array or an object. *)
Definition NumberToString_unused (_ : JsNum) : jsstring := js "NaN".
Definition StringToNumber_unused (_ : jsstring) : JsNum := NaN.
Definition ObjectToString_unused (_ : JsValue) : completion jsstring :=
  Normal (js "[object Object]").

Definition handle_ascii :=
  handle NumberToString_unused StringToNumber_unused ObjectToString_unused
    toLowerCase_ascii hostname_http.

Definition numeric_requirements_body : RequestBody :=
  {| body_requirements := JsNumber (Finite (123 # 1));
     body_country := JsUndefined;
     body_certifications := JsUndefined;
     body_maxResults := JsUndefined |}.

Definition example_body : RequestBody := body_of_request example_request.

(** * Facts *)

(** ** Strings *)

Lemma str_eqb_eq (s t : jsstring) : str_eqb s t = true <-> s = t.
Proof.
  revert t; induction s as [|c s IH]; intros [|d t]; simpl;
    split; intro H; try congruence; try reflexivity.
  - apply andb_true_iff in H as [Hc Hs].
    apply N.eqb_eq in Hc. apply IH in Hs. congruence.
  - injection H as -> ->. apply andb_true_iff; split.
    + apply N.eqb_refl.
    + now apply IH.
Qed.

Lemma str_eqb_refl (s : jsstring) : str_eqb s s = true.
Proof. now apply str_eqb_eq. Qed.

Lemma truthy_nonempty (s : jsstring) : truthy s = true <-> s <> [].
Proof. destruct s; simpl; split; congruence. Qed.



Lemma dropWhile_suffix (p : N -> bool) (s : jsstring) :
  exists front, s = front ++ dropWhile p s.
Proof.
  induction s as [|c s [front IH]]; simpl.
  - now exists [].
  - destruct (p c).
    + exists (c :: front). simpl. now f_equal.
    + now exists [].
Qed.


(** ** Splitting, de-duplication and rounding *)

Lemma truthy_snoc (s : jsstring) (c : N) : truthy (s ++ [c]) = true.
Proof. now destruct s. Qed.

Lemma separator_not_alnum (c : N) :
  is_upper c = false -> is_separator c = negb (is_alnum c).
Proof. unfold is_separator, is_alnum. intros ->. now rewrite orb_false_r. Qed.

(** On a text without upper-case ASCII letters, the non-empty pieces of the
    regular-expression split are the tokens. *)
Lemma split_go_tokens (s : jsstring) :
  Forall (fun c => is_upper c = false) s ->
  forall (in_sep : bool) (cur : jsstring),
    (in_sep = true -> cur = []) ->
    filter truthy (split_go in_sep cur s) = tokens_go cur s.
Proof.
  induction 1 as [|c s Hc _ IH]; intros in_sep cur Hinv.
  - cbn [split_go tokens_go filter].
    destruct cur as [|d cur]; [reflexivity|].
    cbn [rev]. now rewrite truthy_snoc.
  - cbn [split_go tokens_go].
    rewrite (separator_not_alnum c Hc).
    destruct (is_alnum c); cbn [negb].
    + now apply IH.
    + destruct in_sep.
      * rewrite (Hinv eq_refl). now apply IH.
      * cbn [filter]. rewrite (IH true [] (fun _ => eq_refl)).
        destruct cur as [|d cur]; [reflexivity|].
        cbn [rev]. now rewrite truthy_snoc.
Qed.

Lemma filter_long_truthy (l : list jsstring) :
  filter (fun w => (4 <=? List.length w)%nat) (filter truthy l)
  = filter (fun w => (4 <=? List.length w)%nat) l.
Proof.
  induction l as [|w l IH]; [reflexivity|].
  cbn [filter]. destruct w as [|c w]; cbn [truthy].
  - exact IH.
  - cbn [filter]. now rewrite IH.
Qed.

Lemma long_pieces_are_long_tokens (s : jsstring) :
  Forall (fun c => is_upper c = false) s ->
  filter (fun w => (4 <=? List.length w)%nat) (split_non_alnum s)
  = filter (fun w => (4 <=? List.length w)%nat) (tokens s).
Proof.
  intro H. unfold split_non_alnum, tokens.
  rewrite <- (split_go_tokens s H false []) by discriminate.
  symmetry. apply filter_long_truthy.
Qed.

(** Spreading a Set built from a list keeps the first occurrence of each
    element, in order. *)
Lemma fold_Set_add_dedupe (l acc seen : list jsstring) :
  (forall y, existsb (str_eqb y) acc = existsb (str_eqb y) seen) ->
  fold_left Set_add l acc = acc ++ dedupe_seen seen l.
Proof.
  revert acc seen. induction l as [|x l IH]; intros acc seen Hmem.
  - cbn. now rewrite app_nil_r.
  - cbn [fold_left dedupe_seen]. unfold Set_add at 2.
    rewrite <- (Hmem x).
    destruct (existsb (str_eqb x) acc) eqn:E.
    + now apply IH.
    + rewrite (IH (acc ++ [x]) (x :: seen)).
      * now rewrite <- app_assoc.
      * intro y. rewrite existsb_app. cbn [existsb].
        rewrite orb_false_r, Hmem. apply orb_comm.
Qed.

Lemma spread_new_Set_dedupe (l : list jsstring) :
  spread_new_Set l = dedupe_seen [] l.
Proof. unfold spread_new_Set. now rewrite (fold_Set_add_dedupe l [] []). Qed.

(** The double-precision computation [Math.round((m / u) * 100)] is the
    nearest integer to [100 m / u] for every pair of lengths that can
    occur, checked on each of them. *)
Lemma Math_round_ratio_table (m u : nat) :
  (m <= u)%nat -> (1 <= u <= 8)%nat ->
  Math_round
    (PrimFloat.mul
       (PrimFloat.div (Number_of_length m) (Number_of_length u))
       (Number_of_length 100))
  = round_ratio (100 * Z.of_nat m) (Z.of_nat u).
Proof.
  intros Hm Hu.
  do 9 (destruct u as [|u];
        [ try lia;
          do 9 (destruct m as [|m]; [try lia; vm_compute; reflexivity|]);
          lia
        |]).
  lia.
Qed.

(** ** The URL step never throws *)

Section MapperFacts.

Variable toLowerCase : jsstring -> jsstring.
Variable URL_hostname : jsstring -> option jsstring.

Local Abbreviation mapper := (mapResultToSupplier toLowerCase URL_hostname).
Local Abbreviation resolve := (resolve_displayLink URL_hostname).

Lemma resolve_displayLink_normal (u : jsstring) :
  resolve u =
  Normal (if truthy u
          then match URL_hostname u with
               | Some h => h
               | None => js "unknown"
               end
          else js "unknown").
Proof.
  unfold resolve_displayLink, new_URL_hostname.
  destruct (truthy u); [|reflexivity].
  now destruct (URL_hostname u).
Qed.

(** The record the mapper returns, field by field. *)
Lemma mapper_normal (item : RawResultItem) (country requirements : option jsstring) :
  exists s,
    mapper item country requirements = Normal s
    /\ url s = url_of item
    /\ resolve (url_of item) = Normal (displayLink s)
    /\ name s = or_else (item_title item) (displayLink s)
    /\ description s = snippet_of item
    /\ tags s = derive_tags (toLowerCase (snippet_of item))
                  (toLowerCase (or_else requirements []))
    /\ sizeCategory s = derive_sizeCategory (toLowerCase (snippet_of item))
    /\ employees s = derive_employees (toLowerCase (snippet_of item))
    /\ (location s, locationDetail s)
       = derive_location (snippet_of item) (name s) country
    /\ matchScore s
       = compute_matchScore
           (matchedKeywords toLowerCase requirements
              (toLowerCase (snippet_of item)))
           (uniqueKeywords toLowerCase requirements)
    /\ matchSummary s
       = compute_matchSummary (matchScore s)
           (matchedKeywords toLowerCase requirements
              (toLowerCase (snippet_of item)))
           (uniqueKeywords toLowerCase requirements).
Proof.
  unfold mapResultToSupplier.
  rewrite resolve_displayLink_normal. cbn [bind].
  set (d := if truthy (url_of item) then _ else _).
  destruct (derive_location _ _ _) as [loc det] eqn:E.
  eexists; split; [reflexivity|].
  cbn [name url displayLink description tags sizeCategory employees
       location locationDetail matchScore matchSummary].
  repeat split; try reflexivity. now rewrite E.
Qed.

(** C6: the tags of every mapped item contain the literal "Web result",
    and it is their last element. *)
Theorem tags_end_with_web_result
    (item : RawResultItem) (country requirements : option jsstring) :
  exists s front,
    mapper item country requirements = Normal s
    /\ tags s = front ++ [js "Web result"]
    /\ In (js "Web result") (tags s)
    /\ last (tags s) [] = js "Web result".
Proof.
  destruct (mapper_normal item country requirements)
    as (s & Hs & _ & _ & _ & _ & Ht & _).
  unfold derive_tags, push in Ht.
  match type of Ht with _ = ?f ++ _ => exists s, f end.
  rewrite Ht. repeat split.
  - exact Hs.
  - apply in_or_app. right. now left.
  - apply last_last.
Qed.

(** C7: when the item has neither link nor url, or the resolved URL does
    not parse, the mapper returns normally and displayLink is "unknown". *)
Theorem displayLink_unknown_on_url_failure
    (item : RawResultItem) (country requirements : option jsstring) :
  (item_link item = None /\ item_url item = None)
  \/ URL_hostname (url_of item) = None ->
  exists s,
    mapper item country requirements = Normal s
    /\ displayLink s = js "unknown".
Proof.
  intro H.
  destruct (mapper_normal item country requirements)
    as (s & Hs & _ & Hd & _).
  exists s. split; [exact Hs|].
  rewrite resolve_displayLink_normal in Hd.
  injection Hd as Hd. rewrite <- Hd.
  destruct H as [[Hl Hu] | Hp].
  - unfold url_of. now rewrite Hl, Hu.
  - rewrite Hp. now destruct (truthy (url_of item)).
Qed.

(** *** Size and employees *)

(** C5 (amended): the size category is chosen by priority over the
    lowered snippet, small signals first, then multinational signals,
    then the default; independently, the employees field is the
    "mentioned in snippet" text when "employees" occurs in the lowered
    snippet, and the default text otherwise. *)
Theorem size_and_employees_from_lowered_snippet
    (item : RawResultItem) (country requirements : option jsstring) :
  exists s,
    mapper item country requirements = Normal s
    /\ let lowerSnippet := toLowerCase (snippet_of item) in
       sizeCategory s
       = (if existsb (includes lowerSnippet) small_signals
          then js "Small / SME (heuristic from snippet)"
          else if existsb (includes lowerSnippet) large_signals
          then js "Large / multinational (heuristic from snippet)"
          else js "Not stated " ++ en_dash
               ++ js " likely small/medium (verify manually)")
       /\ employees s
          = (if includes lowerSnippet (js "employees")
             then js "Employees mentioned in snippet " ++ en_dash
                  ++ js " confirm on website"
             else js "Unknown (check company website / LinkedIn)").
Proof.
  destruct (mapper_normal item country requirements)
    as (s & Hs & _ & _ & _ & _ & _ & Hsize & Hemp & _).
  exists s. split; [exact Hs|]. cbv zeta. split.
  - rewrite Hsize. unfold derive_sizeCategory, small_signals, large_signals.
    cbn [existsb]. rewrite !orb_false_r, !orb_assoc.
    rewrite str_eqb_refl. reflexivity.
  - rewrite Hemp. reflexivity.
Qed.

(** *** Location *)

Lemma regex_match_nonempty (lit s cap : jsstring) :
  regex_match lit s = Some cap -> truthy cap = true.
Proof.
  induction s as [|c s IH]; cbn [regex_match]; unfold match_here.
  - destruct (match_literal lit []) as [rest|]; [|discriminate].
    destruct (takeWhile location_class rest); [discriminate|].
    now intros [= <-].
  - destruct (match_literal lit (c :: s)) as [rest|]; [|exact IH].
    destruct (takeWhile location_class rest); [exact IH|].
    now intros [= <-].
Qed.

Lemma location_loop_first_capture (patterns : list jsstring)
    (snippet title : jsstring) (country : option jsstring)
    (st : jsstring * jsstring) :
  location_loop patterns snippet title country st
  = match first_capture patterns snippet title with
    | Some cap =>
        (trim cap ++ country_suffix country,
         js "Appears to be located in " ++ trim cap
           ++ js " (from snippet/title).")
    | None => st
    end.
Proof.
  induction patterns as [|p rest IH]; [reflexivity|].
  cbn [location_loop first_capture]. unfold or_match.
  destruct (regex_match p snippet) as [cap|] eqn:Es.
  - now rewrite (regex_match_nonempty _ _ _ Es).
  - destruct (regex_match p title) as [cap|] eqn:Et.
    + now rewrite (regex_match_nonempty _ _ _ Et).
    + exact IH.
Qed.

(** C4 (amended): the patterns "based in", "headquartered in" and
    "located in" are tried in that order, each on the snippet and then on
    the title; the first capture found, with the white space around it
    trimmed, becomes the location, followed by ", <country>" when a
    country is given, and the detail message names the same trimmed
    text; when nothing matches, the location is the country or
    "Not specified" and the detail is the default message. *)
Theorem location_from_first_pattern
    (item : RawResultItem) (country requirements : option jsstring) :
  exists s,
    mapper item country requirements = Normal s
    /\ name s = or_else (item_title item) (displayLink s)
    /\ locationPatterns
       = [js "based in "; js "headquartered in "; js "located in "]
    /\ match first_capture locationPatterns (snippet_of item) (name s) with
       | Some cap =>
           location s = trim cap ++ country_suffix country
           /\ locationDetail s
              = js "Appears to be located in " ++ trim cap
                ++ js " (from snippet/title)."
       | None =>
           location s = or_else country (js "Not specified")
           /\ locationDetail s
              = js "Location not clearly stated in search snippet."
       end.
Proof.
  destruct (mapper_normal item country requirements)
    as (s & Hs & _ & _ & Hn & _ & _ & _ & _ & Hloc & _).
  exists s. repeat split; [exact Hs | exact Hn |].
  unfold derive_location in Hloc.
  rewrite location_loop_first_capture in Hloc.
  destruct (first_capture locationPatterns (snippet_of item) (name s));
    injection Hloc as Hl Hd; split; assumption.
Qed.

(** *** The keyword score *)

Lemma uniqueKeywords_length (requirements : option jsstring) :
  (List.length (uniqueKeywords toLowerCase requirements) <= 8)%nat.
Proof. apply firstn_le_length. Qed.

Lemma matchedKeywords_length (requirements : option jsstring)
    (lowerSnippet : jsstring) :
  (List.length (matchedKeywords toLowerCase requirements lowerSnippet)
   <= List.length (uniqueKeywords toLowerCase requirements))%nat.
Proof. apply filter_length_le. Qed.

Lemma compute_matchScore_spec (matched unique : list jsstring) :
  (List.length matched <= List.length unique)%nat ->
  (List.length unique <= 8)%nat ->
  compute_matchScore matched unique
  = spec_matchScore (List.length matched) (List.length unique).
Proof.
  intros Hm Hu. unfold compute_matchScore, spec_matchScore.
  destruct (List.length unique) as [|u] eqn:E; [reflexivity|].
  cbn [Nat.ltb Nat.leb Nat.eqb].
  apply Math_round_ratio_table; lia.
Qed.

Lemma spec_matchScore_bounds (m u : nat) :
  (m <= u)%nat -> (u <= 8)%nat ->
  (spec_matchScore m u = 0 <-> m = 0%nat)%Z
  /\ ((1 <= m)%nat -> 13 <= spec_matchScore m u)%Z
  /\ (0 <= spec_matchScore m u <= 100)%Z.
Proof.
  intros Hm Hu. unfold spec_matchScore, round_ratio.
  destruct u as [|u]; cbn [Nat.eqb].
  - repeat split; intros; lia.
  - remember (Z.of_nat m) as a eqn:Ea.
    remember (Z.of_nat (S u)) as b eqn:Eb.
    assert (Ha : (0 <= a <= b)%Z) by lia.
    assert (Hb : (1 <= b <= 8)%Z) by lia.
    assert (Hlow : (1 <= a -> 13 <= (2 * (100 * a) + b) / (2 * b))%Z).
    { intro H1. apply Z.div_le_lower_bound; lia. }
    assert (Hup : ((2 * (100 * a) + b) / (2 * b) <= 100)%Z).
    { apply Z.lt_succ_r. apply Z.div_lt_upper_bound; lia. }
    assert (H0 : (0 <= (2 * (100 * a) + b) / (2 * b))%Z).
    { apply Z.div_pos; lia. }
    repeat split; try lia.
    intro Hz. replace a with 0%Z by lia.
    apply Z.div_small. lia.
Qed.

Lemma summaries_differ :
  summary_no_keywords <> summary_zero_match
  /\ forall score matched,
       js "Matches approx. " ++ Number_toString score
         ++ js "% of your key terms: " ++ join (js ", ") matched ++ js "."
       <> summary_zero_match.
Proof.
  split.
  - intro H. apply (f_equal (hd 0)) in H. vm_compute in H. discriminate.
  - intros score matched H. apply (f_equal (hd 0)) in H.
    vm_compute in H. discriminate.
Qed.

(** C10 (amended): the score is zero exactly when no kept keyword occurs
    in the lowered snippet; one matched keyword already gives at least
    13; the score lies between 0 and 100; and the zero-match summary is
    produced exactly when at least one keyword was kept and none of them
    occurs in the lowered snippet. *)
Theorem matchScore_zero_iff_no_match
    (item : RawResultItem) (country requirements : option jsstring) :
  exists s,
    mapper item country requirements = Normal s
    /\ let unique := uniqueKeywords toLowerCase requirements in
       let matched := matchedKeywords toLowerCase requirements
                        (toLowerCase (snippet_of item)) in
       (matchScore s = 0%Z <-> matched = [])
       /\ (matched <> [] -> (13 <= matchScore s)%Z)
       /\ (0 <= matchScore s <= 100)%Z
       /\ (matchSummary s = summary_zero_match
           <-> unique <> [] /\ matched = []).
Proof.
  destruct (mapper_normal item country requirements)
    as (s & Hs & _ & _ & _ & _ & _ & _ & _ & _ & Hsc & Hsum).
  exists s. split; [exact Hs|]. cbv zeta.
  set (unique := uniqueKeywords toLowerCase requirements) in *.
  set (matched := matchedKeywords toLowerCase requirements _) in *.
  pose proof (uniqueKeywords_length requirements) as Hu. fold unique in Hu.
  pose proof (matchedKeywords_length requirements
                (toLowerCase (snippet_of item))) as Hm.
  fold unique matched in Hm.
  rewrite (compute_matchScore_spec matched unique Hm Hu) in Hsc.
  destruct (spec_matchScore_bounds _ _ Hm Hu) as (Hz & Hlow & Hrange).
  rewrite <- Hsc in Hz, Hlow, Hrange.
  assert (Hlen : forall l : list jsstring, List.length l = 0%nat <-> l = []).
  { intro l. destruct l; cbn; split; congruence. }
  assert (Hzero : matchScore s = 0%Z <-> matched = []).
  { rewrite Hz. apply Hlen. }
  repeat split; try lia.
  - apply Hzero.
  - apply Hzero.
  - intro Hne. apply Hlow.
    destruct matched; [congruence | cbn; lia].
  - rewrite Hsum in H. unfold compute_matchSummary in H.
    intro Hnil. rewrite Hnil in H. cbn [List.length Nat.eqb] in H.
    now apply (proj1 summaries_differ).
  - rewrite Hsum in H. unfold compute_matchSummary in H.
    destruct (List.length unique =? 0)%nat;
      [now apply (proj1 summaries_differ) in H|].
    destruct (matchScore s =? 0)%Z eqn:E.
    + apply Z.eqb_eq in E. now apply Hzero.
    + now apply (proj2 summaries_differ) in H.
  - intros [Hne Hnil]. rewrite Hsum. unfold compute_matchSummary.
    destruct (List.length unique =? 0)%nat eqn:E.
    + apply Nat.eqb_eq in E. now apply Hlen in E.
    + apply Hzero in Hnil. now rewrite Hnil.
Qed.

Section LowerCase.

(** What every [toLowerCase] guarantees and the comparison with the
    specification needs: no upper-case ASCII letter is left. *)
Hypothesis toLowerCase_no_upper :
  forall s c, In c (toLowerCase s) -> is_upper c = false.

Lemma uniqueKeywords_spec (requirements : option jsstring) :
  uniqueKeywords toLowerCase requirements
  = spec_uniqueKeywords (toLowerCase (or_else requirements [])).
Proof.
  unfold uniqueKeywords, spec_uniqueKeywords, requirementKeywords.
  rewrite long_pieces_are_long_tokens.
  - now rewrite spread_new_Set_dedupe.
  - apply Forall_forall. apply toLowerCase_no_upper.
Qed.

(** C1: the score the mapper computes is the one the specification
    describes: lower the requirements, take the tokens between runs of
    non-alphanumeric characters, keep those of length at least 4,
    drop repetitions keeping first occurrences, keep the first 8; the
    matched keywords are those occurring in the lowered snippet; the
    score is 100 * matched / unique rounded to the nearest integer,
    and 0 when no token qualifies. *)
Theorem matchScore_refines_spec
    (item : RawResultItem) (country requirements : option jsstring) :
  exists s,
    mapper item country requirements = Normal s
    /\ let lowerReq := toLowerCase (or_else requirements []) in
       let unique := spec_uniqueKeywords lowerReq in
       let matched :=
         spec_matchedKeywords unique (toLowerCase (snippet_of item)) in
       matchScore s
       = spec_matchScore (List.length matched) (List.length unique)
       /\ (filter (fun w => (4 <=? List.length w)%nat) (tokens lowerReq)
           = [] -> matchScore s = 0%Z).
Proof.
  destruct (mapper_normal item country requirements)
    as (s & Hs & _ & _ & _ & _ & _ & _ & _ & _ & Hsc & _).
  exists s. split; [exact Hs|]. cbv zeta.
  pose proof (uniqueKeywords_length requirements) as Hu.
  pose proof (matchedKeywords_length requirements
                (toLowerCase (snippet_of item))) as Hm.
  rewrite (compute_matchScore_spec _ _ Hm Hu) in Hsc.
  unfold matchedKeywords in Hsc.
  rewrite uniqueKeywords_spec in Hsc.
  split; [exact Hsc|].
  intro Hnone. rewrite Hsc.
  unfold spec_uniqueKeywords. now rewrite Hnone.
Qed.

End LowerCase.

End MapperFacts.

(** ** buildQuery *)




(** ** The handler *)



Lemma filterM_entry_link_items (items : list RawResultItem) :
  filterM entry_link (map EntryItem items)
  = Normal (map EntryItem (filter has_link items)).
Proof.
  induction items as [|item items IH]; [reflexivity|].
  cbn [map filterM entry_link bind filter]. rewrite IH. cbn [bind].
  destruct (has_link item) eqn:E; unfold has_link in E; now rewrite E.
Qed.


Lemma slice0_firstn {A : Type} (n : Q) (l : list A) :
  (0 <= Qnum n)%Z -> slice0 n l = firstn (Z.to_nat (Qfloor n)) l.
Proof.
  intro Hn. unfold slice0, ToIntegerOrInfinity, Qfloor.
  destruct n as [a d]. cbn [Qnum Qden] in *.
  rewrite Z.quot_div_nonneg by lia.
  assert (Hq : (0 <= a / Z.pos d)%Z) by (apply Z.div_pos; lia).
  destruct (a / Z.pos d <? 0)%Z eqn:E; [apply Z.ltb_lt in E; lia|].
  destruct (Z.le_ge_cases (a / Z.pos d) (Z.of_nat (List.length l)))
    as [Hle | Hge].
  - now rewrite Z.min_l.
  - rewrite Z.min_r by exact Hge. rewrite Nat2Z.id.
    rewrite firstn_all. symmetry. apply firstn_all2. lia.
Qed.

Lemma slice0_map {A B : Type} (f : A -> B) (n : Q) (l : list A) :
  slice0 n (map f l) = map f (slice0 n l).
Proof. unfold slice0. rewrite length_map. apply firstn_map. Qed.

(** The effective count, case by case. *)
Lemma resolve_num_cases :
  resolve_num None = 10 # 1
  /\ (forall m : Q, (m <= 0)%Q -> resolve_num (Some m) = 10 # 1)
  /\ (forall m : Q, (0 < m)%Q -> (m <= 20 # 1)%Q -> resolve_num (Some m) = m)
  /\ (forall m : Q, (20 # 1 < m)%Q -> resolve_num (Some m) = 20 # 1).
Proof.
  repeat split.
  - intros m Hm. unfold resolve_num.
    apply Qle_bool_iff in Hm. rewrite Hm. now rewrite andb_false_r.
  - intros m Hpos Hle. unfold resolve_num, Number_truthy, Math_min.
    assert (Hz : Qeq_bool m 0 = false).
    { destruct (Qeq_bool m 0) eqn:E; [|reflexivity].
      apply Qeq_bool_iff in E. rewrite E in Hpos.
      now apply Qlt_irrefl in Hpos. }
    assert (Hn : Qle_bool m 0 = false).
    { destruct (Qle_bool m 0) eqn:E; [|reflexivity].
      apply Qle_bool_iff in E. now apply Qle_not_lt in E. }
    rewrite Hz, Hn. cbn [negb andb].
    apply Qle_bool_iff in Hle. now rewrite Hle.
  - intros m Hbig. unfold resolve_num, Number_truthy, Math_min.
    assert (Hpos : (0 < m)%Q) by (eapply Qlt_trans; [|exact Hbig]; reflexivity).
    assert (Hz : Qeq_bool m 0 = false).
    { destruct (Qeq_bool m 0) eqn:E; [|reflexivity].
      apply Qeq_bool_iff in E. rewrite E in Hpos.
      now apply Qlt_irrefl in Hpos. }
    assert (Hn : Qle_bool m 0 = false).
    { destruct (Qle_bool m 0) eqn:E; [|reflexivity].
      apply Qle_bool_iff in E. now apply Qle_not_lt in E. }
    assert (Hm : Qle_bool m (20 # 1) = false).
    { destruct (Qle_bool m (20 # 1)) eqn:E; [|reflexivity].
      apply Qle_bool_iff in E. now apply Qle_not_lt in E. }
    now rewrite Hz, Hn, Hm.
Qed.


Section HandlerFacts.

Variable toLowerCase : jsstring -> jsstring.
Variable URL_hostname : jsstring -> option jsstring.
Variable SERP_API_KEY : option jsstring.
Variable fetch : OutboundRequest -> FetchOutcome.

Local Abbreviation mapper := (mapResultToSupplier toLowerCase URL_hostname).
Local Abbreviation handle :=
  (handler toLowerCase URL_hostname SERP_API_KEY fetch).
Local Abbreviation attempt :=
  (handler_try toLowerCase URL_hostname SERP_API_KEY fetch).
Local Abbreviation request := (request_of SERP_API_KEY).




Lemma mapM_map_entry_items (country requirements : option jsstring)
    (items : list RawResultItem) :
  exists suppliers,
    mapM (map_entry toLowerCase URL_hostname country requirements)
         (map EntryItem items) = Normal suppliers
    /\ Forall2 (fun item s => mapper item country requirements = Normal s)
               items suppliers.
Proof.
  induction items as [|item items (suppliers & Hm & Hf)].
  - exists []. split; [reflexivity | constructor].
  - destruct (mapper_normal toLowerCase URL_hostname item country
                requirements) as (s & Hs & _).
    exists (s :: suppliers). split.
    + cbn [map mapM map_entry]. rewrite Hs. cbn [bind].
      now rewrite Hm.
    + now constructor.
Qed.


End HandlerFacts.

(** ** Worked examples on ASCII text *)

Lemma toLowerCase_ascii_no_upper (s : jsstring) (c : N) :
  In c (toLowerCase_ascii s) -> is_upper c = false.
Proof.
  unfold toLowerCase_ascii. intro H.
  apply in_map_iff in H as (x & Hx & _).
  unfold is_upper, in_range in *.
  destruct ((65 <=? x) && (x <=? 90)) eqn:E.
  - apply andb_true_iff in E as [E1 E2].
    apply N.leb_le in E1, E2. subst c.
    apply andb_false_iff. right. apply N.leb_gt. lia.
  - now subst c.
Qed.

(** The example of the specification: the acme item. *)
Example acme_example :
  exists s,
    mapper_ascii acme_item (Some (js "USA"))
      (Some (js "plastic prototype parts")) = Normal s
    /\ displayLink s = js "acme.example.com"
    /\ tags s = [js "ISO / quality"; js "Plastics"; js "Prototyping";
                 js "Web result"]
    /\ sizeCategory s = js "Small / SME (heuristic from snippet)"
    /\ location s = js "Ohio, USA"
    /\ matchScore s = 33%Z
    /\ matchSummary s = js "Matches approx. 33% of your key terms: plastic.".
Proof. eexists. split; [vm_compute; reflexivity|]. now vm_compute. Qed.

Example regex_examples :
  regex_match (js "based in ") (js "We are BASED IN New-York, NY")
  = Some (js "New-York")
  /\ regex_match (js "based in ") (js "based in 3 places, based in Rome")
     = Some (js "Rome")
  /\ regex_match (js "located in ") (js "based in Rome") = None.
Proof. now vm_compute. Qed.

Example split_examples :
  split_non_alnum (js "  cnc-milling, 5axis ") =
  [[]; js "cnc"; js "milling"; js "5axis"; []]
  /\ split_non_alnum [] = [[]]
  /\ spread_new_Set [js "part"; js "cast"; js "part"; js "cast"; js "mold"]
     = [js "part"; js "cast"; js "mold"].
Proof. now vm_compute. Qed.

Example handler_examples :
  snd (handler_ascii example_key provider_no_results None)
  = {| res_status := 200; res_body := SuppliersBody [] |}
  /\ snd (handler_ascii example_key provider_null_entry None)
     = error_response 500 (js "Internal server error")
  /\ map url example_suppliers
     = [js "https://acme.example.com/x"; js "https://ohio.example.com/"]
  /\ num (request_of example_key None) = 10 # 1.
Proof. now vm_compute. Qed.

Lemma matchScore_refines_spec_witness :
  (forall s c, In c (toLowerCase_ascii s) -> is_upper c = false)
  /\ exists s,
       mapper_ascii acme_item (Some (js "USA"))
         (Some (js "plastic prototype parts")) = Normal s
       /\ matchScore s = 33%Z.
Proof.
  split; [exact toLowerCase_ascii_no_upper|].
  destruct (matchScore_refines_spec toLowerCase_ascii hostname_http
              toLowerCase_ascii_no_upper acme_item (Some (js "USA"))
              (Some (js "plastic prototype parts"))) as (s & Hs & Hscore & _).
  exists s. split; [exact Hs | exact Hscore].
Defined.

Lemma displayLink_unknown_on_url_failure_witness :
  ((item_link blank_item = None /\ item_url blank_item = None)
   \/ hostname_http (url_of blank_item) = None)
  /\ exists s,
       mapper_ascii blank_item None None = Normal s
       /\ displayLink s = js "unknown".
Proof.
  assert (H : (item_link blank_item = None /\ item_url blank_item = None)
              \/ hostname_http (url_of blank_item) = None)
    by (left; split; reflexivity).
  split; [exact H|].
  exact (displayLink_unknown_on_url_failure toLowerCase_ascii hostname_http
           blank_item None None H).
Defined.


Lemma matchScore_zero_iff_no_match_witness :
  exists s,
    mapper_ascii acme_item (Some (js "USA"))
      (Some (js "plastic prototype parts")) = Normal s
    /\ (13 <= matchScore s)%Z.
Proof.
  destruct (matchScore_zero_iff_no_match toLowerCase_ascii hostname_http
              acme_item (Some (js "USA"))
              (Some (js "plastic prototype parts")))
    as (s & Hs & _ & Hlow & _).
  exists s. split; [exact Hs|].
  apply Hlow. vm_compute. discriminate.
Defined.

(** ** Where the specification's wording and the code part ways *)

(** C4 as worded: the location is the captured text itself.  The snippet
    "Tooling supplier based in Ohio (USA)" captures "Ohio " with its
    trailing blank, and the location is "Ohio". *)
Lemma location_is_not_the_raw_capture :
  ~ (forall item country requirements s cap,
       mapper_ascii item country requirements = Normal s ->
       first_capture locationPatterns (snippet_of item) (name s) = Some cap ->
       location s = cap ++ country_suffix country).
Proof.
  intro H.
  pose proof (H ohio_item None None) as H0.
  vm_compute in H0.
  specialize (H0 _ _ eq_refl eq_refl). discriminate.
Qed.

(** C5 as worded: the employees text depends on "employees" occurring in
    the snippet.  The snippet "Employees: 120" does not contain
    "employees", and the field is the "mentioned" text all the same. *)
Lemma employees_check_is_on_lowered_snippet :
  ~ (forall item country requirements s,
       mapper_ascii item country requirements = Normal s ->
       employees s
       = if includes (snippet_of item) (js "employees")
         then employees_mentioned
         else employees_default).
Proof.
  intro H.
  pose proof (H staff_item None None) as H0.
  vm_compute in H0.
  specialize (H0 _ eq_refl). discriminate.
Qed.

(** C10 as worded: the zero-match summary is produced exactly when no kept
    keyword occurs in the snippet.  With no requirements no keyword is
    kept, none occurs, and the summary is the no-keywords one. *)
Lemma zero_match_summary_needs_a_keyword :
  ~ (forall item country requirements s,
       mapper_ascii item country requirements = Normal s ->
       (matchSummary s = summary_zero_match
        <-> matchedKeywords toLowerCase_ascii requirements
              (toLowerCase_ascii (snippet_of item)) = [])).
Proof.
  intro H.
  pose proof (H blank_item None None) as H0.
  vm_compute in H0.
  specialize (H0 _ eq_refl). destruct H0 as [_ H0].
  specialize (H0 eq_refl). discriminate.
Qed.

(** * Further properties of the code *)

(** ** Substrings *)

Lemma startsWith_prefix (s k : jsstring) :
  startsWith s k = true <-> exists post, s = k ++ post.
Proof.
  revert s. induction k as [|c k IH]; intros s.
  - destruct s; cbn; split; eauto.
  - destruct s as [|d s]; cbn [startsWith].
    + split; [discriminate | intros (post & H); discriminate].
    + rewrite andb_true_iff, N.eqb_eq, IH. split.
      * intros (-> & post & ->). now exists post.
      * intros (post & H). injection H as -> ->. eauto.
Qed.

(** [includes] is the substring relation. *)
Lemma includes_substring (s k : jsstring) :
  includes s k = true <-> exists pre post, s = pre ++ k ++ post.
Proof.
  induction s as [|d s IH].
  - cbn [includes]. rewrite orb_false_r, startsWith_prefix. split.
    + intros (post & H). now exists [], post.
    + intros (pre & post & H). symmetry in H.
      apply app_eq_nil in H as (-> & H). eauto.
  - cbn [includes]. rewrite orb_true_iff, startsWith_prefix, IH. split.
    + intros [(post & H) | (pre & post & H)].
      * now exists [], post.
      * exists (d :: pre), post. cbn. now f_equal.
    + intros ([|e pre] & post & H).
      * left. now exists post.
      * right. injection H as _ H. now exists pre, post.
Qed.

Lemma includes_trans (s w k : jsstring) :
  includes s w = true -> includes w k = true -> includes s k = true.
Proof.
  rewrite !includes_substring.
  intros (pre & post & ->) (pre' & post' & ->).
  exists (pre ++ pre'), (post' ++ post).
  now rewrite <- !app_assoc.
Qed.

Lemma existsb_str_In (t : jsstring) (l : list jsstring) :
  existsb (str_eqb t) l = true <-> In t l.
Proof.
  rewrite existsb_exists. split.
  - intros (x & Hx & He). apply str_eqb_eq in He. now subst.
  - intro H. exists t. split; [exact H | apply str_eqb_refl].
Qed.

Lemma subsequence_In (l m : list jsstring) :
  subsequence l m -> forall x, In x l -> In x m.
Proof.
  induction 1 as [|x l m _ IH|x l m _ IH]; intros y Hy.
  - destruct Hy.
  - destruct Hy as [<- | Hy]; [now left | right; now apply IH].
  - right. now apply IH.
Qed.

Lemma subsequence_NoDup (l m : list jsstring) :
  subsequence l m -> NoDup m -> NoDup l.
Proof.
  induction 1 as [|x l m Hs IH|x l m Hs IH]; intro Hm.
  - constructor.
  - inversion Hm as [|? ? Hx Hm']; subst. constructor; [|now apply IH].
    intro Hin. apply Hx. now apply (subsequence_In l m).
  - inversion Hm; subst. now apply IH.
Qed.

Lemma known_tags_NoDup : NoDup known_tags.
Proof.
  unfold known_tags.
  repeat (constructor;
          [rewrite <- existsb_str_In; vm_compute; discriminate|]).
  constructor.
Qed.

Section MapperMore.

Variable toLowerCase : jsstring -> jsstring.
Variable URL_hostname : jsstring -> option jsstring.

Local Abbreviation mapper := (mapResultToSupplier toLowerCase URL_hostname).

(** The fields [mapper_normal] leaves out. *)
Lemma mapper_normal_rest (item : RawResultItem)
    (country requirements : option jsstring) :
  exists s,
    mapper item country requirements = Normal s
    /\ turnover s = derive_turnover (toLowerCase (snippet_of item))
    /\ countryHint s = or_else country (js "Not specified").
Proof.
  unfold mapResultToSupplier.
  rewrite resolve_displayLink_normal. cbn [bind].
  destruct (derive_location _ _ _) as [loc det].
  eexists; split; [reflexivity|]. now cbn [turnover countryHint].
Qed.

(** ** Tags *)

Lemma derive_tags_pieces (lowerSnippet lowerReq : jsstring) :
  derive_tags lowerSnippet lowerReq
  = (if includes lowerSnippet (js "iso") then [js "ISO / quality"] else [])
    ++ (if includes lowerSnippet (js "medical")
           || includes lowerSnippet (js "pharma")
        then [js "Life sciences"] else [])
    ++ (if includes lowerSnippet (js "plastic") then [js "Plastics"] else [])
    ++ (if includes lowerSnippet (js "contract manufacturing")
        then [js "Contract manufacturing"] else [])
    ++ (if includes lowerReq (js "prototype")
           || includes lowerReq (js "prototyping")
        then [js "Prototyping"] else [])
    ++ [js "Web result"].
Proof.
  unfold derive_tags, push.
  destruct (includes lowerSnippet (js "iso"));
    destruct (includes lowerSnippet (js "medical")
              || includes lowerSnippet (js "pharma"));
    destruct (includes lowerSnippet (js "plastic"));
    destruct (includes lowerSnippet (js "contract manufacturing"));
    destruct (includes lowerReq (js "prototype")
              || includes lowerReq (js "prototyping"));
    reflexivity.
Qed.

(** X1: the tags are always taken from the six known labels, in their
    fixed order and without repetition; there are between one and six. *)
Theorem tags_subsequence_of_known
    (item : RawResultItem) (country requirements : option jsstring) :
  exists s,
    mapper item country requirements = Normal s
    /\ subsequence (tags s) known_tags
    /\ NoDup (tags s)
    /\ (1 <= List.length (tags s) <= 6)%nat.
Proof.
  destruct (mapper_normal toLowerCase URL_hostname item country requirements)
    as (s & Hs & _ & _ & _ & _ & Ht & _).
  exists s. split; [exact Hs|].
  assert (Hsub : subsequence (tags s) known_tags).
  { rewrite Ht, derive_tags_pieces. unfold known_tags.
    repeat match goal with
           | |- context [if ?b then _ else _] => destruct b
           end;
      cbn [app]; repeat (first [apply subsequence_keep | apply subsequence_skip
                                | apply subsequence_nil]). }
  split; [exact Hsub|]. split.
  - exact (subsequence_NoDup _ _ Hsub known_tags_NoDup).
  - rewrite Ht, derive_tags_pieces.
    repeat match goal with
           | |- context [if ?b then _ else _] => destruct b
           end; cbn; lia.
Qed.

(** X2: each optional tag is present exactly when its trigger holds:
    "ISO / quality" for "iso", "Life sciences" for "medical" or "pharma",
    "Plastics" for "plastic", "Contract manufacturing" for that phrase, all
    in the lowered snippet, and "Prototyping" for "prototype" or
    "prototyping" in the lowered requirements. *)
Theorem tag_present_iff_trigger
    (item : RawResultItem) (country requirements : option jsstring) :
  exists s,
    mapper item country requirements = Normal s
    /\ let lowerSnippet := toLowerCase (snippet_of item) in
       let lowerReq := toLowerCase (or_else requirements []) in
       (In (js "ISO / quality") (tags s)
        <-> includes lowerSnippet (js "iso") = true)
       /\ (In (js "Life sciences") (tags s)
           <-> includes lowerSnippet (js "medical") = true
               \/ includes lowerSnippet (js "pharma") = true)
       /\ (In (js "Plastics") (tags s)
           <-> includes lowerSnippet (js "plastic") = true)
       /\ (In (js "Contract manufacturing") (tags s)
           <-> includes lowerSnippet (js "contract manufacturing") = true)
       /\ (In (js "Prototyping") (tags s)
           <-> includes lowerReq (js "prototype") = true
               \/ includes lowerReq (js "prototyping") = true).
Proof.
  destruct (mapper_normal toLowerCase URL_hostname item country requirements)
    as (s & Hs & _ & _ & _ & _ & Ht & _).
  exists s. split; [exact Hs|]. cbv zeta.
  rewrite Ht, derive_tags_pieces.
  rewrite <- !existsb_str_In, <- !orb_true_iff.
  repeat match goal with
         | |- context [if ?b then _ else _] => destruct b
         end;
    vm_compute; repeat split; congruence.
Qed.

(** ** Size, employees, turnover *)

(** X3: the size category is always one of the three messages; the
    placeholder "Unknown" the code starts from never reaches the result. *)
Theorem sizeCategory_never_unknown
    (item : RawResultItem) (country requirements : option jsstring) :
  exists s,
    mapper item country requirements = Normal s
    /\ (sizeCategory s = size_small \/ sizeCategory s = size_large
        \/ sizeCategory s = size_default)
    /\ sizeCategory s <> js "Unknown"
    /\ sizeCategory s <> [].
Proof.
  destruct (mapper_normal toLowerCase URL_hostname item country requirements)
    as (s & Hs & _ & _ & _ & _ & _ & Hsize & _).
  exists s. split; [exact Hs|].
  rewrite Hsize. unfold derive_sizeCategory. rewrite str_eqb_refl.
  repeat match goal with
         | |- context [if ?b then _ else _] => destruct b
         end;
    (split; [auto|]); split; intro H; apply (f_equal (hd 0)) in H;
    vm_compute in H; discriminate.
Qed.

(** X4: the turnover note is the "mentioned" message exactly when the
    lowered snippet contains "million", "billion", "turnover" or "revenue",
    and the "not stated" message otherwise. *)
Theorem turnover_mentioned_iff_signal
    (item : RawResultItem) (country requirements : option jsstring) :
  exists s,
    mapper item country requirements = Normal s
    /\ let signal :=
         existsb (includes (toLowerCase (snippet_of item))) turnover_signals in
       (turnover s = turnover_mentioned <-> signal = true)
       /\ (turnover s = turnover_default <-> signal = false).
Proof.
  destruct (mapper_normal_rest item country requirements)
    as (s & Hs & Ht & _).
  exists s. split; [exact Hs|]. cbv zeta.
  rewrite Ht. unfold derive_turnover, turnover_signals. cbn [existsb].
  rewrite !orb_false_r, !orb_assoc.
  fold turnover_mentioned turnover_default.
  assert (Hne : turnover_mentioned <> turnover_default).
  { intro H. apply (f_equal (hd 0)) in H. vm_compute in H. discriminate. }
  destruct (_ || _ || _ || _); repeat split; congruence.
Qed.

(** X5: a lowered snippet that mentions "thousands of employees" always
    gets the "employees mentioned" text, and its size category is the
    large one unless a small signal takes precedence; it is never the
    default. *)
Theorem thousands_of_employees_sets_both
    (item : RawResultItem) (country requirements : option jsstring) :
  includes (toLowerCase (snippet_of item)) (js "thousands of employees")
  = true ->
  exists s,
    mapper item country requirements = Normal s
    /\ employees s = employees_mentioned
    /\ (sizeCategory s = size_small \/ sizeCategory s = size_large)
    /\ (existsb (includes (toLowerCase (snippet_of item))) small_signals
        = false -> sizeCategory s = size_large).
Proof.
  intro H.
  destruct (mapper_normal toLowerCase URL_hostname item country requirements)
    as (s & Hs & _ & _ & _ & _ & _ & Hsize & Hemp & _).
  exists s. split; [exact Hs|].
  assert (He : includes (toLowerCase (snippet_of item)) (js "employees")
               = true).
  { apply (includes_trans _ _ _ H). now vm_compute. }
  rewrite Hemp, Hsize. unfold derive_employees, derive_sizeCategory.
  rewrite He, H, !orb_true_r. unfold small_signals. cbn [existsb].
  rewrite !orb_false_r, !orb_assoc.
  destruct (_ || _ || _ || _); repeat split; auto; discriminate.
Qed.

End MapperMore.

(** ** Trimming *)

Lemma dropWhile_head (p : N -> bool) (s t : jsstring) (c : N) :
  dropWhile p s = c :: t -> p c = false.
Proof.
  induction s as [|d s IH]; cbn [dropWhile]; [discriminate|].
  destruct (p d) eqn:E; [exact IH|].
  now intros [= <- _].
Qed.

Lemma dropWhile_Forall (P : N -> Prop) (p : N -> bool) (s : jsstring) :
  Forall P s -> Forall P (dropWhile p s).
Proof.
  induction 1 as [|c s Hc Hs IH]; cbn [dropWhile]; [constructor|].
  destruct (p c); [exact IH | now constructor].
Qed.

Lemma trim_Forall (P : N -> Prop) (s : jsstring) :
  Forall P s -> Forall P (trim s).
Proof.
  intro H. unfold trim.
  apply Forall_rev, dropWhile_Forall, Forall_rev, dropWhile_Forall, H.
Qed.

(** What [trim] returns has no white space at either end. *)
Lemma trim_trimmed (s : jsstring) : trimmed (trim s).
Proof.
  unfold trimmed.
  destruct (trim s) as [|c t] eqn:E; [exact I|].
  unfold trim in E.
  destruct (dropWhile is_space (rev (dropWhile is_space s))) as [|d v] eqn:Ev;
    [discriminate|].
  pose proof (dropWhile_head _ _ _ _ Ev) as Hd.
  cbn [rev] in E. split.
  - destruct (dropWhile_suffix is_space (rev (dropWhile is_space s)))
      as (front & Hf).
    rewrite Ev in Hf. apply (f_equal (@rev N)) in Hf.
    rewrite rev_involutive, rev_app_distr in Hf. cbn [rev] in Hf.
    rewrite E in Hf. cbn [app] in Hf.
    exact (dropWhile_head _ _ _ _ Hf).
  - rewrite <- E. now rewrite last_last.
Qed.

Lemma dropWhile_fixed (p : N -> bool) (s : jsstring) :
  match s with [] => True | c :: _ => p c = false end -> dropWhile p s = s.
Proof. destruct s as [|c s]; cbn; [reflexivity | now intros ->]. Qed.

Lemma trim_of_trimmed (s : jsstring) : trimmed s -> trim s = s.
Proof.
  unfold trimmed, trim. destruct s as [|c t]; [reflexivity|].
  intros [Hc Hl].
  rewrite (dropWhile_fixed is_space (c :: t)) by exact Hc.
  rewrite dropWhile_fixed; [apply rev_involutive|].
  destruct (rev (c :: t)) as [|d r] eqn:E; [exact I|].
  apply (f_equal (@rev N)) in E. rewrite rev_involutive in E.
  cbn [rev] in E. rewrite E, last_last in Hl. exact Hl.
Qed.

Lemma trim_idempotent (s : jsstring) : trim (trim s) = trim s.
Proof. apply trim_of_trimmed, trim_trimmed. Qed.

(** ** Location text *)

Lemma takeWhile_Forall (p : N -> bool) (s : jsstring) :
  Forall (fun c => p c = true) (takeWhile p s).
Proof.
  induction s as [|c s IH]; cbn [takeWhile]; [constructor|].
  destruct (p c) eqn:E; now constructor.
Qed.

Lemma regex_match_class (lit s cap : jsstring) :
  regex_match lit s = Some cap ->
  Forall (fun c => location_class c = true) cap.
Proof.
  induction s as [|c s IH]; cbn [regex_match]; unfold match_here.
  - destruct (match_literal lit []) as [rest|]; [|discriminate].
    pose proof (takeWhile_Forall location_class rest) as Hf.
    destruct (takeWhile location_class rest); [discriminate|].
    now intros [= <-].
  - destruct (match_literal lit (c :: s)) as [rest|]; [|exact IH].
    pose proof (takeWhile_Forall location_class rest) as Hf.
    destruct (takeWhile location_class rest); [exact IH|].
    now intros [= <-].
Qed.

Lemma first_capture_class (patterns : list jsstring)
    (snippet title cap : jsstring) :
  first_capture patterns snippet title = Some cap ->
  Forall (fun c => location_class c = true) cap.
Proof.
  induction patterns as [|p rest IH]; cbn [first_capture]; [discriminate|].
  destruct (regex_match p snippet) as [c1|] eqn:E1.
  - intros [= <-]. exact (regex_match_class _ _ _ E1).
  - destruct (regex_match p title) as [c2|] eqn:E2; [|exact IH].
    intros [= <-]. exact (regex_match_class _ _ _ E2).
Qed.

Lemma is_lower_shift (c : N) : is_upper c = true -> is_lower (c + 32) = true.
Proof.
  unfold is_upper, is_lower, in_range.
  rewrite !andb_true_iff, !N.leb_le. lia.
Qed.

Lemma upper_not_lower (c : N) : is_upper c = true -> is_lower c = false.
Proof.
  unfold is_upper, is_lower, in_range.
  rewrite andb_true_iff, andb_false_iff, !N.leb_le, !N.leb_gt. lia.
Qed.

Lemma canonicalize_lower (c : N) :
  canonicalize (if is_upper c then c + 32 else c) = canonicalize c.
Proof.
  destruct (is_upper c) eqn:E; [|reflexivity].
  unfold canonicalize.
  rewrite (is_lower_shift c E), (upper_not_lower c E). lia.
Qed.

Lemma location_class_lower (c : N) :
  location_class (if is_upper c then c + 32 else c) = location_class c.
Proof.
  destruct (is_upper c) eqn:E; [|reflexivity].
  unfold location_class.
  now rewrite (is_lower_shift c E), E, orb_true_r.
Qed.

Lemma match_literal_lower (lit s : jsstring) :
  match_literal lit (toLowerCase_ascii s)
  = option_map toLowerCase_ascii (match_literal lit s).
Proof.
  revert s. induction lit as [|c lit IH]; intros s.
  - reflexivity.
  - destruct s as [|d s]; [reflexivity|].
    cbn [toLowerCase_ascii map match_literal].
    rewrite canonicalize_lower.
    destruct (canonicalize c =? canonicalize d); [apply IH | reflexivity].
Qed.

Lemma takeWhile_class_lower (s : jsstring) :
  takeWhile location_class (toLowerCase_ascii s)
  = toLowerCase_ascii (takeWhile location_class s).
Proof.
  induction s as [|c s IH]; [reflexivity|].
  cbn [toLowerCase_ascii map takeWhile].
  rewrite location_class_lower.
  destruct (location_class c); [|reflexivity].
  cbn [map]. f_equal. exact IH.
Qed.

Lemma match_here_lower (lit s : jsstring) :
  match_here lit (toLowerCase_ascii s)
  = option_map toLowerCase_ascii (match_here lit s).
Proof.
  unfold match_here. rewrite match_literal_lower.
  destruct (match_literal lit s) as [rest|]; [|reflexivity].
  cbn [option_map]. rewrite takeWhile_class_lower.
  now destruct (takeWhile location_class rest).
Qed.

(** X6: the location patterns ignore ASCII letter case in the text: on the
    lower-cased text a pattern matches exactly when it matches the original
    text, and it captures the lower-cased capture. *)
Theorem regex_match_ignores_case (lit s : jsstring) :
  regex_match lit (toLowerCase_ascii s)
  = option_map toLowerCase_ascii (regex_match lit s).
Proof.
  induction s as [|c s IH].
  - cbn [toLowerCase_ascii map regex_match].
    change (@nil N) with (toLowerCase_ascii []) at 1.
    rewrite match_here_lower. now destruct (match_here lit []).
  - change (toLowerCase_ascii (c :: s))
      with ((if is_upper c then c + 32 else c) :: toLowerCase_ascii s) at 1.
    cbn [regex_match].
    change ((if is_upper c then c + 32 else c) :: toLowerCase_ascii s)
      with (toLowerCase_ascii (c :: s)).
    rewrite match_here_lower.
    destruct (match_here lit (c :: s)); [reflexivity | exact IH].
Qed.

Section MapperLocation.

Variable toLowerCase : jsstring -> jsstring.
Variable URL_hostname : jsstring -> option jsstring.

Local Abbreviation mapper := (mapResultToSupplier toLowerCase URL_hostname).

(** X7: the location is either the default (the country, or
    "Not specified") with the default detail, or an extracted place
    followed by the country suffix; an extracted place consists of ASCII
    letters, white space and hyphens only and has no white space at its
    ends, and the detail message quotes the same place. *)
Theorem location_text_shape
    (item : RawResultItem) (country requirements : option jsstring) :
  exists s,
    mapper item country requirements = Normal s
    /\ ((location s = or_else country (js "Not specified")
         /\ locationDetail s = locationDetail_default)
        \/ exists place,
             location s = place ++ country_suffix country
             /\ locationDetail s
                = js "Appears to be located in " ++ place
                  ++ js " (from snippet/title)."
             /\ Forall (fun c => location_class c = true) place
             /\ trimmed place).
Proof.
  destruct (mapper_normal toLowerCase URL_hostname item country requirements)
    as (s & Hs & _ & _ & _ & _ & _ & _ & _ & Hloc & _).
  exists s. split; [exact Hs|].
  unfold derive_location in Hloc.
  rewrite location_loop_first_capture in Hloc.
  destruct (first_capture locationPatterns (snippet_of item) (name s))
    as [cap|] eqn:E; injection Hloc as Hl Hd.
  - right. exists (trim cap). repeat split; try assumption.
    + apply trim_Forall. exact (first_capture_class _ _ _ _ E).
    + apply trim_trimmed.
  - left. now split.
Qed.

(** X8: the mapper never throws, whatever the URL parser does; displayLink
    is either "unknown" or the host the parser gave for the resolved URL,
    and it is that host whenever the resolved URL is non-empty and parses;
    the name is the title when there is one, else displayLink. *)
Theorem mapper_never_throws
    (item : RawResultItem) (country requirements : option jsstring) :
  exists s,
    mapper item country requirements = Normal s
    /\ (displayLink s = js "unknown"
        \/ URL_hostname (url_of item) = Some (displayLink s))
    /\ (forall h, url_of item <> [] -> URL_hostname (url_of item) = Some h ->
                  displayLink s = h)
    /\ (given (item_title item) = true -> Some (name s) = item_title item)
    /\ (given (item_title item) = false -> name s = displayLink s).
Proof.
  destruct (mapper_normal toLowerCase URL_hostname item country requirements)
    as (s & Hs & _ & Hd & Hn & _).
  exists s. split; [exact Hs|].
  rewrite resolve_displayLink_normal in Hd. injection Hd as Hd.
  repeat split.
  - rewrite <- Hd. destruct (truthy (url_of item)); [|now left].
    destruct (URL_hostname (url_of item)); [now right | now left].
  - intros h Hne Hh. rewrite <- Hd, Hh.
    apply truthy_nonempty in Hne. now rewrite Hne.
  - intro Ht. rewrite Hn. unfold given, or_else in *.
    destruct (item_title item) as [t|]; [|discriminate]. now rewrite Ht.
  - intro Ht. rewrite Hn. unfold given, or_else in *.
    destruct (item_title item) as [t|]; [|reflexivity]. now rewrite Ht.
Qed.

End MapperLocation.

(** ** Keywords *)

Lemma split_go_chars (s cur : jsstring) (in_sep : bool) :
  Forall (fun c => keyword_char c = true) cur ->
  Forall (Forall (fun c => keyword_char c = true)) (split_go in_sep cur s).
Proof.
  revert cur in_sep. induction s as [|c s IH]; intros cur in_sep Hcur.
  - cbn [split_go]. constructor; [|constructor]. now apply Forall_rev.
  - cbn [split_go]. unfold is_separator. fold (keyword_char c).
    destruct (keyword_char c) eqn:E; cbn [negb].
    + apply IH. now constructor.
    + destruct in_sep.
      * now apply IH.
      * constructor; [now apply Forall_rev | apply IH; constructor].
Qed.

Lemma dedupe_seen_In (l seen : list jsstring) (x : jsstring) :
  In x (dedupe_seen seen l) -> In x l /\ ~ In x seen.
Proof.
  revert seen. induction l as [|y l IH]; intros seen H; [destruct H|].
  cbn [dedupe_seen] in H.
  destruct (existsb (str_eqb y) seen) eqn:E.
  - destruct (IH _ H). split; [now right | assumption].
  - destruct H as [<- | H].
    + split; [now left|]. intro Hin. apply existsb_str_In in Hin. congruence.
    + destruct (IH _ H) as [Hl Hs]. split; [now right|].
      intro Hin. apply Hs. now right.
Qed.

Lemma dedupe_seen_NoDup (l seen : list jsstring) : NoDup (dedupe_seen seen l).
Proof.
  revert seen. induction l as [|y l IH]; intros seen; [constructor|].
  cbn [dedupe_seen]. destruct (existsb (str_eqb y) seen); [apply IH|].
  constructor; [|apply IH].
  intro Hin. apply dedupe_seen_In in Hin as [_ Hn]. apply Hn. now left.
Qed.

Lemma firstn_incl {A : Type} (n : nat) (l : list A) (x : A) :
  In x (firstn n l) -> In x l.
Proof.
  intro H. rewrite <- (firstn_skipn n l). apply in_or_app. now left.
Qed.

Lemma firstn_NoDup {A : Type} (n : nat) (l : list A) :
  NoDup l -> NoDup (firstn n l).
Proof.
  intro H. rewrite <- (firstn_skipn n l) in H.
  exact (NoDup_app_remove_r _ _ H).
Qed.

Lemma spec_matchScore_full (m u : nat) :
  (m <= u)%nat -> (u <= 8)%nat ->
  (spec_matchScore m u = 100%Z <-> u <> 0%nat /\ m = u).
Proof.
  intros Hm Hu. unfold spec_matchScore, round_ratio.
  destruct u as [|u]; cbn [Nat.eqb].
  - split; [discriminate | now intros [H _]].
  - remember (Z.of_nat m) as a eqn:Ea.
    remember (Z.of_nat (S u)) as b eqn:Eb.
    assert (Hb : (1 <= b <= 8)%Z) by lia.
    assert (Ha : (0 <= a <= b)%Z) by lia.
    split.
    + intro H. split; [discriminate|].
      destruct (Z.eq_dec a b) as [|Hne]; [lia|]. exfalso.
      assert (Hlt : ((2 * (100 * a) + b) / (2 * b) < 100)%Z).
      { apply Z.div_lt_upper_bound; lia. }
      lia.
    + intros [_ ->]. replace a with b by lia.
      symmetry. apply (Z.div_unique _ _ 100%Z b); lia.
Qed.

Lemma spec_matchScore_mono (m1 m2 u : nat) :
  (m1 <= m2)%nat -> (spec_matchScore m1 u <= spec_matchScore m2 u)%Z.
Proof.
  intro H. unfold spec_matchScore, round_ratio.
  destruct (u =? 0)%nat eqn:E; [lia|].
  apply Nat.eqb_neq in E.
  apply Z.div_le_mono; lia.
Qed.

Section MapperKeywords.

Variable toLowerCase : jsstring -> jsstring.
Variable URL_hostname : jsstring -> option jsstring.

Local Abbreviation mapper := (mapResultToSupplier toLowerCase URL_hostname).
Local Abbreviation unique_of := (uniqueKeywords toLowerCase).
Local Abbreviation matched_of :=
  (fun requirements item =>
     matchedKeywords toLowerCase requirements
       (toLowerCase (snippet_of item))).

(** X9: whatever the requirements, at most 8 keywords are kept, no keyword
    is kept twice, and every kept keyword has at least 4 characters, all of
    them lower-case ASCII letters or digits. *)
Theorem uniqueKeywords_wellformed (requirements : option jsstring) :
  (List.length (unique_of requirements) <= 8)%nat
  /\ NoDup (unique_of requirements)
  /\ forall k, In k (unique_of requirements) ->
       (4 <= List.length k)%nat
       /\ Forall (fun c => keyword_char c = true) k.
Proof.
  split; [apply firstn_le_length|].
  unfold uniqueKeywords. rewrite spread_new_Set_dedupe. split.
  - apply firstn_NoDup, dedupe_seen_NoDup.
  - intros k Hk. apply firstn_incl in Hk.
    apply dedupe_seen_In in Hk as [Hk _].
    unfold requirementKeywords in Hk.
    apply filter_In in Hk as [Hk Hlen]. split.
    + now apply Nat.leb_le in Hlen.
    + unfold split_non_alnum in Hk.
      pose proof (split_go_chars
                    (toLowerCase (or_else requirements [])) [] false
                    (Forall_nil _)) as Hall.
      rewrite Forall_forall in Hall. now apply Hall.
Qed.

Lemma matchScore_counts (item : RawResultItem)
    (country requirements : option jsstring) :
  exists s,
    mapper item country requirements = Normal s
    /\ matchScore s
       = spec_matchScore (List.length (matched_of requirements item))
           (List.length (unique_of requirements))
    /\ matchSummary s
       = compute_matchSummary (matchScore s) (matched_of requirements item)
           (unique_of requirements).
Proof.
  destruct (mapper_normal toLowerCase URL_hostname item country requirements)
    as (s & Hs & _ & _ & _ & _ & _ & _ & _ & _ & Hsc & Hsum).
  exists s. split; [exact Hs|]. split; [|exact Hsum].
  rewrite Hsc. apply compute_matchScore_spec.
  - apply matchedKeywords_length.
  - apply uniqueKeywords_length.
Qed.

(** X10: the score is 100 exactly when at least one keyword was kept and
    every kept keyword occurs in the lowered snippet. *)
Theorem matchScore_full_iff_all_match
    (item : RawResultItem) (country requirements : option jsstring) :
  exists s,
    mapper item country requirements = Normal s
    /\ (matchScore s = 100%Z
        <-> unique_of requirements <> []
            /\ forall k, In k (unique_of requirements) ->
                 includes (toLowerCase (snippet_of item)) k = true).
Proof.
  destruct (matchScore_counts item country requirements) as (s & Hs & Hsc & _).
  exists s. split; [exact Hs|].
  rewrite Hsc.
  rewrite (spec_matchScore_full _ _
             (matchedKeywords_length toLowerCase requirements _)
             (uniqueKeywords_length toLowerCase requirements)).
  unfold matchedKeywords.
  set (u := uniqueKeywords toLowerCase requirements).
  set (f := fun k => includes (toLowerCase (snippet_of item)) k).
  split.
  - intros [Hne Hlen]. split.
    + destruct u; [now cbn in Hne | discriminate].
    + apply filter_length_forallb in Hlen.
      rewrite forallb_forall in Hlen. exact Hlen.
  - intros [Hne Hall]. split.
    + destruct u; [congruence | discriminate].
    + rewrite forallb_filter_id; [reflexivity|].
      apply forallb_forall. exact Hall.
Qed.

(** X11: for the same requirements, an item whose snippet contains at
    least as many of the kept keywords never scores lower. *)
Theorem matchScore_monotone
    (item1 item2 : RawResultItem) (country1 country2 requirements : option jsstring) :
  (List.length (matched_of requirements item1)
   <= List.length (matched_of requirements item2))%nat ->
  exists s1 s2,
    mapper item1 country1 requirements = Normal s1
    /\ mapper item2 country2 requirements = Normal s2
    /\ (matchScore s1 <= matchScore s2)%Z.
Proof.
  intro H.
  destruct (matchScore_counts item1 country1 requirements)
    as (s1 & Hs1 & Hsc1 & _).
  destruct (matchScore_counts item2 country2 requirements)
    as (s2 & Hs2 & Hsc2 & _).
  exists s1, s2. repeat split; try assumption.
  rewrite Hsc1, Hsc2. now apply spec_matchScore_mono.
Qed.

(** X12: the summary is the "no specific keywords" message exactly when no
    keyword was kept; when some kept keyword occurs in the lowered snippet
    it reads "Matches approx. <score>% of your key terms: " followed by the
    matched keywords, in their order, separated by ", ", and a full stop. *)
Theorem matchSummary_cases
    (item : RawResultItem) (country requirements : option jsstring) :
  exists s,
    mapper item country requirements = Normal s
    /\ (matchSummary s = summary_no_keywords <-> unique_of requirements = [])
    /\ (matched_of requirements item <> [] ->
        matchSummary s
        = js "Matches approx. " ++ Number_toString (Z.to_N (matchScore s))
          ++ js "% of your key terms: "
          ++ join (js ", ") (matched_of requirements item) ++ js ".").
Proof.
  destruct (matchScore_counts item country requirements)
    as (s & Hs & Hsc & Hsum).
  exists s. split; [exact Hs|].
  pose proof (matchedKeywords_length toLowerCase requirements
                (toLowerCase (snippet_of item))) as Hm.
  pose proof (uniqueKeywords_length toLowerCase requirements) as Hu.
  destruct (spec_matchScore_bounds _ _ Hm Hu) as (Hz & Hlow & _).
  rewrite <- Hsc in Hz, Hlow.
  rewrite Hsum. unfold compute_matchSummary.
  set (u := uniqueKeywords toLowerCase requirements) in *.
  set (m := matchedKeywords toLowerCase requirements _) in *.
  split.
  - destruct u as [|k u']; cbn [List.length Nat.eqb].
    + split; reflexivity.
    + split; [|discriminate]. intro H. exfalso.
      destruct (matchScore s =? 0)%Z.
      * symmetry in H. now apply (proj1 summaries_differ) in H.
      * apply (f_equal (hd 0)) in H. vm_compute in H. discriminate.
  - intro Hne.
    assert (Hpos : (1 <= List.length m)%nat)
      by (destruct m; [congruence | cbn; lia]).
    assert (Hu0 : (List.length u =? 0)%nat = false)
      by (apply Nat.eqb_neq; lia).
    assert (Hs0 : (matchScore s =? 0)%Z = false)
      by (apply Z.eqb_neq; specialize (Hlow Hpos); lia).
    now rewrite Hu0, Hs0.
Qed.

End MapperKeywords.

(** ** The query *)

Lemma buildQuery_pieces (requirements country certifications : option jsstring) :
  buildQuery requirements country certifications
  = (if truthy (trim (or_else requirements []))
     then trim (or_else requirements [])
     else js "industrial supplier")
    ++ certifications_clause certifications ++ role_clause
    ++ country_clause country.
Proof.
  unfold buildQuery, certifications_clause, country_clause.
  change (js " (" ++ join (js " OR ") extraKeywords ++ js ")")
    with role_clause.
  destruct certifications as [c|]; [destruct (truthy c)|];
    (destruct country as [k|]; [destruct (truthy k)|]);
    repeat rewrite <- app_assoc; repeat rewrite app_nil_r; reflexivity.
Qed.

(** X13: white space around the requirements does not change the query, an
    absent requirements text gives the same query as an empty one, and the
    query never starts with white space. *)
Theorem buildQuery_ignores_outer_space
    (requirements : jsstring) (country certifications : option jsstring) :
  buildQuery (Some (trim requirements)) country certifications
  = buildQuery (Some requirements) country certifications
  /\ buildQuery None country certifications
     = buildQuery (Some []) country certifications
  /\ exists c rest,
       buildQuery (Some requirements) country certifications = c :: rest
       /\ is_space c = false.
Proof.
  assert (Hor : forall t : jsstring, or_else (Some t) [] = t).
  { intros [|c t]; reflexivity. }
  split; [|split].
  - rewrite !buildQuery_pieces, !Hor. now rewrite trim_idempotent.
  - reflexivity.
  - rewrite buildQuery_pieces, Hor.
    pose proof (trim_trimmed requirements) as Ht.
    destruct (trim requirements) as [|c t] eqn:E; cbn [truthy].
    + eexists _, _. split; [reflexivity | now vm_compute].
    + destruct Ht as [Hc _]. eexists c, _. split; [reflexivity | exact Hc].
Qed.

(** ** Decimal text of the upstream status *)

Lemma uint_units_inj (d d' : Decimal.uint) :
  uint_units d = uint_units d' -> d = d'.
Proof.
  revert d'. induction d as [|d IH|d IH|d IH|d IH|d IH|d IH|d IH|d IH|d IH|d IH];
    intros [|e|e|e|e|e|e|e|e|e|e] H; cbn [uint_units] in H;
    try discriminate; try reflexivity;
    injection H as H; f_equal; now apply IH.
Qed.

Lemma Number_toString_inj (n n' : N) :
  Number_toString n = Number_toString n' -> n = n'.
Proof.
  unfold Number_toString. intro H. apply uint_units_inj in H.
  rewrite <- (DecimalN.Unsigned.of_to n), <- (DecimalN.Unsigned.of_to n').
  now rewrite H.
Qed.

(** X14: the 502 message determines the upstream status: two different
    statuses never give the same message. *)
Theorem upstream_error_message_injective (status1 status2 : N) :
  status1 <> status2 ->
  upstream_error_message status1 <> upstream_error_message status2.
Proof.
  unfold upstream_error_message. intros Hne H. apply Hne.
  apply app_inv_head in H. now apply Number_toString_inj.
Qed.

(** ** The effective count *)

(** X15: whatever maxResults is, the count sent to the provider and used
    to cut the results is greater than 0 and at most 20. *)
Theorem resolve_num_range (maxResults : option Q) :
  (0 < resolve_num maxResults)%Q /\ (resolve_num maxResults <= 20 # 1)%Q.
Proof.
  unfold resolve_num, Math_min. destruct maxResults as [m|].
  2:{ split; [reflexivity | discriminate]. }
  destruct (Number_truthy m && negb (Qle_bool m 0)) eqn:E.
  2:{ split; [reflexivity | discriminate]. }
  apply andb_true_iff in E as [_ E].
  assert (Hpos : (0 < m)%Q).
  { apply Qnot_le_lt. intro H. apply Qle_bool_iff in H.
    rewrite H in E. discriminate. }
  destruct (Qle_bool m (20 # 1)) eqn:E20.
  - apply Qle_bool_iff in E20. now split.
  - split; [reflexivity | discriminate].
Qed.



Section HandlerMore.

Variable toLowerCase : jsstring -> jsstring.
Variable URL_hostname : jsstring -> option jsstring.
Variable SERP_API_KEY : option jsstring.
Variable fetch : OutboundRequest -> FetchOutcome.

Local Abbreviation mapper := (mapResultToSupplier toLowerCase URL_hostname).
Local Abbreviation handle :=
  (handler toLowerCase URL_hostname SERP_API_KEY fetch).
Local Abbreviation request := (request_of SERP_API_KEY).




End HandlerMore.

(** ** Worked examples for the further properties *)

Lemma thousands_of_employees_sets_both_witness :
  includes (toLowerCase_ascii (snippet_of giant_item))
    (js "thousands of employees") = true
  /\ exists s,
       mapper_ascii giant_item None None = Normal s
       /\ employees s = employees_mentioned
       /\ sizeCategory s = size_large.
Proof.
  assert (H : includes (toLowerCase_ascii (snippet_of giant_item))
                (js "thousands of employees") = true) by reflexivity.
  split; [exact H|].
  destruct (thousands_of_employees_sets_both toLowerCase_ascii hostname_http
              giant_item None None H) as (s & Hs & He & _ & Hl).
  exists s. repeat split; [exact Hs | exact He | exact (Hl eq_refl)].
Defined.

Lemma matchScore_monotone_witness :
  exists s1 s2,
    mapper_ascii blank_item None (Some (js "plastic prototype parts"))
    = Normal s1
    /\ mapper_ascii acme_item None (Some (js "plastic prototype parts"))
       = Normal s2
    /\ (matchScore s1 <= matchScore s2)%Z.
Proof.
  apply (matchScore_monotone toLowerCase_ascii hostname_http
           blank_item acme_item None None
           (Some (js "plastic prototype parts"))).
  vm_compute. repeat constructor.
Defined.

Lemma upstream_error_message_injective_witness :
  503 <> 404 /\ upstream_error_message 503 <> upstream_error_message 404.
Proof.
  assert (H : 503 <> 404) by discriminate.
  split; [exact H|].
  exact (upstream_error_message_injective 503 404 H).
Defined.



(** * The handler on an arbitrary request body *)

Lemma or_value_string (o : option jsstring) (d : jsstring) :
  or_value (value_of_string o) d = JsString (or_else o d).
Proof.
  destruct o as [s|]; [|reflexivity].
  unfold or_value. cbn [value_of_string ToBoolean or_else].
  now destruct (truthy s).
Qed.

Lemma ToBoolean_string (o : option jsstring) :
  ToBoolean (value_of_string o) = given o.
Proof. now destruct o. Qed.

Lemma or_else_idem (o : option jsstring) :
  or_else (Some (or_else o [])) [] = or_else o [].
Proof.
  destruct o as [s|]; [|reflexivity].
  cbn [or_else]. destruct (truthy s) eqn:E; cbn [truthy]; [|reflexivity].
  now rewrite E.
Qed.

Section RequestFacts.

Variable NumberToString : JsNum -> jsstring.
Variable StringToNumber : jsstring -> JsNum.
Variable ObjectToString : JsValue -> completion jsstring.
Variable toLowerCase : jsstring -> jsstring.
Variable URL_hostname : jsstring -> option jsstring.

Local Abbreviation to_string := (ToString NumberToString ObjectToString).
Local Abbreviation build := (buildQuery_dyn NumberToString ObjectToString).
Local Abbreviation count :=
  (resolve_num_dyn StringToNumber ObjectToString).
Local Abbreviation mapper_dyn :=
  (mapResultToSupplier_dyn NumberToString ObjectToString toLowerCase
     URL_hostname).
Local Abbreviation read :=
  (read_request NumberToString StringToNumber ObjectToString).

(** ** On fields of the documented types the two readings agree *)

Lemma buildQuery_dyn_strings (requirements country certifications : option jsstring) :
  build (value_of_string requirements) (value_of_string country)
    (value_of_string certifications)
  = Normal (buildQuery requirements country certifications).
Proof.
  unfold buildQuery_dyn, buildQuery.
  rewrite or_value_string. cbn [string_receiver bind].
  rewrite !ToBoolean_string.
  destruct certifications as [c|]; cbn [given value_of_string ToString];
    [destruct (truthy c); cbn [bind]|];
    (destruct country as [k|]; cbn [given value_of_string ToString];
     [destruct (truthy k); cbn [bind]|]); reflexivity.
Qed.

Lemma resolve_num_dyn_number (maxResults : option Q) :
  count (value_of_number maxResults) = Normal (resolve_num maxResults).
Proof.
  destruct maxResults as [m|]; [|reflexivity].
  unfold resolve_num_dyn, resolve_num, Number_truthy.
  cbn [value_of_number ToBoolean ToNumber bind].
  destruct (negb (Qeq_bool m 0)); cbn [andb]; [|reflexivity].
  now destruct (negb (Qle_bool m 0)).
Qed.

Lemma location_loop_dyn_strings (patterns : list jsstring)
    (snippet title : jsstring) (country : option jsstring)
    (l d : jsstring) :
  location_loop_dyn NumberToString ObjectToString patterns snippet title
    (value_of_string country) (JsString l, d)
  = Normal (JsString (fst (location_loop patterns snippet title country (l, d))),
            snd (location_loop patterns snippet title country (l, d))).
Proof.
  induction patterns as [|p rest IH]; [reflexivity|].
  cbn [location_loop_dyn location_loop].
  destruct (or_match (regex_match p snippet) (regex_match p title)) as [m1|];
    [|exact IH].
  destruct (truthy m1); [|exact IH].
  unfold country_suffix_dyn. rewrite ToBoolean_string.
  destruct country as [c|]; cbn [given value_of_string ToString];
    [destruct (truthy c)|]; reflexivity.
Qed.

Lemma mapResultToSupplier_dyn_strings (item : RawResultItem)
    (country requirements : option jsstring) :
  mapper_dyn item (value_of_string country) (value_of_string requirements)
  = (s <- mapResultToSupplier toLowerCase URL_hostname item country
            requirements ;;
     Normal (supplier_json s)).
Proof.
  unfold mapResultToSupplier_dyn, mapResultToSupplier.
  rewrite resolve_displayLink_normal. cbn [bind].
  rewrite !or_value_string. cbn [string_receiver bind].
  unfold locationDetail_default at 1.
  rewrite location_loop_dyn_strings. cbn [bind].
  unfold derive_location, location_default, uniqueKeywords, matchedKeywords,
    uniqueKeywords, requirementKeywords.
  rewrite or_else_idem.
  destruct (location_loop _ _ _ _ _) as [loc det].
  reflexivity.
Qed.

(** ** Reading the request *)

Lemma buildQuery_dyn_inv (requirements country certifications : JsValue)
    (query : jsstring) :
  build requirements country certifications = Normal query ->
  (exists text, string_receiver (or_value requirements []) = Normal text)
  /\ (ToBoolean country = true -> exists c, to_string country = Normal c)
  /\ query <> [].
Proof.
  unfold buildQuery_dyn.
  destruct (string_receiver (or_value requirements [])) as [text|];
    cbn [bind]; [|discriminate].
  set (base := if truthy (trim text) then trim text
               else js "industrial supplier").
  assert (Hbase : base <> []).
  { unfold base. destruct (truthy (trim text)) eqn:E.
    - now apply truthy_nonempty.
    - discriminate. }
  assert (Hne : forall rest : jsstring, base ++ rest <> []).
  { intros rest H. apply app_eq_nil in H as [H _]. now apply Hbase. }
  intro H. split; [now exists text|].
  destruct (ToBoolean certifications).
  - destruct (to_string certifications) as [c|]; cbn [bind] in H;
      [|discriminate].
    destruct (ToBoolean country).
    + destruct (to_string country) as [k|]; cbn [bind] in H; [|discriminate].
      injection H as <-. split; [now exists k|].
      rewrite <- !app_assoc. apply Hne.
    + injection H as <-. split; [discriminate|].
      rewrite <- !app_assoc. apply Hne.
  - cbn [bind] in H. destruct (ToBoolean country).
    + destruct (to_string country) as [k|]; cbn [bind] in H; [|discriminate].
      injection H as <-. split; [now exists k|].
      rewrite <- !app_assoc. apply Hne.
    + injection H as <-. split; [discriminate|]. apply Hne.
Qed.

Lemma resolve_num_dyn_range (maxResults : JsValue) (n : Q) :
  count maxResults = Normal n -> (0 < n)%Q /\ (n <= 20 # 1)%Q.
Proof.
  assert (H10 : (0 < 10 # 1)%Q /\ (10 # 1 <= 20 # 1)%Q)
    by (split; [reflexivity | discriminate]).
  assert (H20 : (0 < 20 # 1)%Q /\ (20 # 1 <= 20 # 1)%Q)
    by (split; [reflexivity | discriminate]).
  unfold resolve_num_dyn.
  destruct (ToBoolean maxResults); [|now intros [= <-]].
  destruct (ToNumber StringToNumber ObjectToString maxResults) as [x|];
    cbn [bind]; [|discriminate].
  destruct x as [| | |m]; try (now intros [= <-]).
  destruct (Qle_bool m 0) eqn:E0; cbn [negb]; [now intros [= <-]|].
  assert (Hpos : (0 < m)%Q).
  { apply Qnot_le_lt. intro H. apply Qle_bool_iff in H. congruence. }
  unfold Math_min. destruct (Qle_bool m (20 # 1)) eqn:E20.
  - apply Qle_bool_iff in E20. now intros [= <-].
  - now intros [= <-].
Qed.

Lemma read_request_inv (req_body : option RequestBody) (query : jsstring) (n : Q) :
  read req_body = Normal (query, n) ->
  build (body_requirements (fields_or_empty req_body))
    (body_country (fields_or_empty req_body))
    (body_certifications (fields_or_empty req_body)) = Normal query
  /\ count (body_maxResults (fields_or_empty req_body)) = Normal n.
Proof.
  unfold read_request.
  destruct (buildQuery_dyn _ _ _ _ _) as [q0|]; cbn [bind]; [|discriminate].
  destruct (resolve_num_dyn _ _ _) as [n0|]; cbn [bind]; [|discriminate].
  now intros [= <- <-].
Qed.

(** Once the query was built, the mapper throws on no item. *)
Lemma mapResultToSupplier_dyn_normal (item : RawResultItem)
    (requirements country certifications : JsValue) (query : jsstring) :
  build requirements country certifications = Normal query ->
  exists s, mapper_dyn item country requirements = Normal s.
Proof.
  intro H. apply buildQuery_dyn_inv in H as ((text & Ht) & Hc & _).
  unfold mapResultToSupplier_dyn.
  rewrite resolve_displayLink_normal. cbn [bind].
  rewrite Ht. cbn [bind].
  assert (Hs : exists suffix,
             country_suffix_dyn NumberToString ObjectToString country
             = Normal suffix).
  { unfold country_suffix_dyn. destruct (ToBoolean country).
    - destruct (Hc eq_refl) as (c & ->). cbn [bind]. eauto.
    - eauto. }
  destruct Hs as (suffix & Hs).
  assert (Hl : forall patterns snippet title st,
             exists st',
               location_loop_dyn NumberToString ObjectToString patterns
                 snippet title country st = Normal st').
  { induction patterns as [|p rest IH]; intros snippet title st;
      cbn [location_loop_dyn]; [eauto|].
    destruct (or_match _ _) as [m1|]; [|apply IH].
    destruct (truthy m1); [|apply IH].
    rewrite Hs. cbn [bind]. eauto. }
  match goal with
  | |- context [location_loop_dyn _ _ ?ps ?sn ?ti _ ?st] =>
      destruct (Hl ps sn ti st) as ([loc det] & ->)
  end.
  cbn [bind]. eauto.
Qed.

Lemma mapM_map_entry_dyn_items (items : list RawResultItem)
    (requirements country certifications : JsValue) (query : jsstring) :
  build requirements country certifications = Normal query ->
  exists suppliers,
    mapM (map_entry_dyn NumberToString ObjectToString toLowerCase
            URL_hostname country requirements)
         (map EntryItem items) = Normal suppliers
    /\ Forall2 (fun item s => mapper_dyn item country requirements = Normal s)
               items suppliers.
Proof.
  intro H. induction items as [|item items (suppliers & Hm & Hf)].
  - exists []. split; [reflexivity | constructor].
  - destruct (mapResultToSupplier_dyn_normal item _ _ _ _ H) as (s & Hs).
    exists (s :: suppliers). split.
    + cbn [map mapM map_entry_dyn]. rewrite Hs. cbn [bind]. now rewrite Hm.
    + now constructor.
Qed.

End RequestFacts.

Section HandleFacts.

Variable NumberToString : JsNum -> jsstring.
Variable StringToNumber : jsstring -> JsNum.
Variable ObjectToString : JsValue -> completion jsstring.
Variable toLowerCase : jsstring -> jsstring.
Variable URL_hostname : jsstring -> option jsstring.
Variable SERP_API_KEY : option jsstring.
Variable fetch : OutboundRequest -> FetchOutcome.

Local Abbreviation mapper_dyn :=
  (mapResultToSupplier_dyn NumberToString ObjectToString toLowerCase
     URL_hostname).
Local Abbreviation read :=
  (read_request NumberToString StringToNumber ObjectToString).
Local Abbreviation serve :=
  (handle NumberToString StringToNumber ObjectToString toLowerCase
     URL_hostname SERP_API_KEY fetch).
Local Abbreviation attempt :=
  (handle_try NumberToString StringToNumber ObjectToString toLowerCase
     URL_hostname SERP_API_KEY fetch).

Lemma handle_catch (req_body : option RequestBody) :
  serve req_body
  = (fst (attempt req_body),
     match snd (attempt req_body) with
     | Normal r => r
     | Throw _ => error_json 500 internal_error_message
     end).
Proof. unfold handle. now destruct (handle_try _ _ _ _ _ _ _ _). Qed.

Lemma handle_try_unreadable (req_body : option RequestBody) (e : exn) :
  read req_body = Throw e -> attempt req_body = ([], Throw e).
Proof.
  unfold read_request, handle_try.
  destruct (buildQuery_dyn _ _ _ _ _) as [query|]; cbn [bind].
  - destruct (resolve_num_dyn _ _ _) as [n|]; cbn [bind];
      [discriminate | now intros [= ->]].
  - now intros [= ->].
Qed.

Lemma handle_try_readable (req_body : option RequestBody)
    (query : jsstring) (n : Q) :
  read req_body = Normal (query, n) ->
  attempt req_body
  = if negb (given SERP_API_KEY) then
      ([], Normal (error_json 500 key_missing_message))
    else
      ([search_request SERP_API_KEY query n],
       response <- await_fetch (fetch (search_request SERP_API_KEY query n)) ;;
       if negb (response_ok response) then
         Normal (error_json 502 (upstream_error_message (status response)))
       else
         results <- organic_results_of (body response) ;;
         kept <- filterM entry_link results ;;
         suppliers <-
           mapM (map_entry_dyn NumberToString ObjectToString toLowerCase
                   URL_hostname (body_country (fields_or_empty req_body))
                   (body_requirements (fields_or_empty req_body)))
                (slice0 n kept) ;;
         Normal {| out_status := 200; out_body := SuppliersJson suppliers |}).
Proof.
  unfold read_request, handle_try.
  destruct (buildQuery_dyn _ _ _ _ _) as [q0|]; cbn [bind]; [|discriminate].
  destruct (resolve_num_dyn _ _ _) as [n0|]; cbn [bind]; [|discriminate].
  now intros [= <- <-].
Qed.

Lemma read_request_cases (req_body : option RequestBody) :
  (exists query n, read req_body = Normal (query, n))
  \/ exists e, read req_body = Throw e.
Proof.
  destruct (read req_body) as [[query n]|e]; [left | right]; eauto.
Qed.

(** A requirements value that is truthy and not a string cannot be read:
    [.trim] is missing on it. *)
Lemma read_request_foreign_requirements (req_body : option RequestBody) :
  ToBoolean (body_requirements (fields_or_empty req_body)) = true ->
  (forall s, body_requirements (fields_or_empty req_body) <> JsString s) ->
  read req_body = Throw TypeError.
Proof.
  intros Ht Hs. unfold read_request, buildQuery_dyn, or_value.
  rewrite Ht.
  destruct (body_requirements (fields_or_empty req_body)) as [| | | |s| |];
    try reflexivity.
  now destruct (Hs s).
Qed.

(** On a body whose fields hold their documented types, the handler is the
    one studied above. *)
Lemma mapM_map_entry_dyn_strings (country requirements : option jsstring)
    (entries : list ResultEntry) :
  mapM (map_entry_dyn NumberToString ObjectToString toLowerCase URL_hostname
          (value_of_string country) (value_of_string requirements)) entries
  = (l <- mapM (map_entry toLowerCase URL_hostname country requirements)
            entries ;;
     Normal (map supplier_json l)).
Proof.
  induction entries as [|e entries IH]; [reflexivity|].
  cbn [mapM]. rewrite IH.
  destruct e as [|item]; cbn [map_entry_dyn map_entry bind]; [reflexivity|].
  rewrite mapResultToSupplier_dyn_strings.
  destruct (mapResultToSupplier _ _ _ _ _) as [s|]; cbn [bind];
    [|reflexivity].
  now destruct (mapM (map_entry _ _ _ _) entries).
Qed.

Theorem handle_on_typed_body (req_body : option SearchRequest) :
  serve (option_map body_of_request req_body)
  = (fst (handler toLowerCase URL_hostname SERP_API_KEY fetch req_body),
     response_json
       (snd (handler toLowerCase URL_hostname SERP_API_KEY fetch req_body))).
Proof.
  assert (Hf : fields_or_empty (option_map body_of_request req_body)
               = body_of_request (body_or_empty req_body))
    by (destruct req_body; reflexivity).
  unfold handle, handle_try, handler, handler_try. rewrite Hf.
  cbn [body_of_request body_requirements body_country body_certifications
       body_maxResults].
  rewrite buildQuery_dyn_strings, resolve_num_dyn_number.
  destruct (negb (given SERP_API_KEY)); [reflexivity|].
  cbn [fst snd]. f_equal.
  destruct (await_fetch (fetch _)) as [response|]; cbn [bind]; [|reflexivity].
  destruct (negb (response_ok response)); [reflexivity|].
  destruct (organic_results_of (body response)) as [results|]; cbn [bind];
    [|reflexivity].
  destruct (filterM entry_link results) as [kept|]; cbn [bind];
    [|reflexivity].
  rewrite mapM_map_entry_dyn_strings.
  now destruct (mapM (map_entry _ _ _ _) _).
Qed.

(** C2 (amended): the three failure responses, on every request body.
    Without the credential nothing is sent, and the answer is 500 with the
    configured message whenever the query and the count could be read from
    the body; a provider status outside 200..299 gives 502 with the status
    in the message; every exception gives 500 "Internal server error",
    among them the one thrown while reading the body, whether the
    credential is set or not, as for a requirements value that is truthy
    and not a string; and every answer that is not a 200 with a list of
    suppliers is one of these three. *)
Theorem handler_failure_responses (req_body : option RequestBody) :
  (given SERP_API_KEY = false -> fst (serve req_body) = [])
  /\ (given SERP_API_KEY = false ->
      forall query n,
        read req_body = Normal (query, n) ->
        serve req_body
        = ([], error_json 500 (js "SerpAPI key not configured on server.")))
  /\ (forall e,
        read req_body = Throw e ->
        serve req_body
        = ([], error_json 500 (js "Internal server error")))
  /\ (ToBoolean (body_requirements (fields_or_empty req_body)) = true ->
      (forall s,
         body_requirements (fields_or_empty req_body) <> JsString s) ->
      serve req_body = ([], error_json 500 (js "Internal server error")))
  /\ (given SERP_API_KEY = true ->
      forall query n response,
        read req_body = Normal (query, n) ->
        fetch (search_request SERP_API_KEY query n) = FetchResolves response ->
        response_ok response = false ->
        serve req_body
        = ([search_request SERP_API_KEY query n],
           error_json 502
             (js "SerpAPI HTTP error " ++ Number_toString (status response))))
  /\ (forall e,
        snd (attempt req_body) = Throw e ->
        snd (serve req_body) = error_json 500 (js "Internal server error"))
  /\ (given SERP_API_KEY = true ->
      forall query n,
        read req_body = Normal (query, n) ->
        fetch (search_request SERP_API_KEY query n) = FetchRejects
        \/ (exists response,
              fetch (search_request SERP_API_KEY query n)
              = FetchResolves response
              /\ response_ok response = true
              /\ (body response = BodyMalformed
                  \/ body response = BodyNull
                  \/ body response = BodyObject FieldNotArray
                  \/ exists entries,
                       body response = BodyObject (FieldArray entries)
                       /\ In EntryNull entries)) ->
        exists e, snd (attempt req_body) = Throw e)
  /\ ((exists suppliers,
         snd (serve req_body)
         = {| out_status := 200; out_body := SuppliersJson suppliers |})
      \/ serve req_body
         = ([], error_json 500 (js "SerpAPI key not configured on server."))
      \/ (exists upstream,
            snd (serve req_body)
            = error_json 502
                (js "SerpAPI HTTP error " ++ Number_toString upstream))
      \/ snd (serve req_body)
         = error_json 500 (js "Internal server error")).
Proof.
  assert (Hunread : forall e, read req_body = Throw e ->
                      serve req_body
                      = ([], error_json 500 internal_error_message)).
  { intros e He. rewrite handle_catch.
    now rewrite (handle_try_unreadable _ _ He). }
  split.
  { intro Hk. rewrite handle_catch. cbn [fst].
    destruct (read_request_cases req_body) as [(query & n & Hr) | (e & He)].
    - rewrite (handle_try_readable _ _ _ Hr). now rewrite Hk.
    - now rewrite (handle_try_unreadable _ _ He). }
  split.
  { intros Hk query n Hr. rewrite handle_catch.
    rewrite (handle_try_readable _ _ _ Hr). now rewrite Hk. }
  split; [exact Hunread|].
  split.
  { intros Ht Hs. apply (Hunread TypeError).
    now apply read_request_foreign_requirements. }
  split.
  { intros Hk query n response Hr Hf Hok. rewrite handle_catch.
    rewrite (handle_try_readable _ _ _ Hr). rewrite Hk.
    cbn [negb fst snd]. rewrite Hf. cbn [await_fetch bind].
    now rewrite Hok. }
  split.
  { intros e He. rewrite handle_catch. cbn [snd]. now rewrite He. }
  split.
  { intros Hk query n Hr H.
    rewrite (handle_try_readable _ _ _ Hr). rewrite Hk.
    cbn [negb snd].
    destruct H as [Hf | (response & Hf & Hok & Hb)]; rewrite Hf;
      cbn [await_fetch bind]; [now exists FetchError|].
    rewrite Hok. cbn [negb].
    destruct Hb as [Hb | [Hb | [Hb | (entries & Hb & Hnull)]]]; rewrite Hb;
      cbn [organic_results_of bind];
      [now exists SyntaxError | now exists TypeError
       | now exists TypeError |].
    assert (Hthrow : filterM entry_link entries = Throw TypeError).
    { clear Hb. induction entries as [|e entries IH]; [destruct Hnull|].
      cbn [filterM]. destruct Hnull as [-> | Hin]; [reflexivity|].
      destruct e as [|item]; [reflexivity|].
      cbn [entry_link bind]. now rewrite (IH Hin). }
    rewrite Hthrow. now exists TypeError. }
  destruct (read_request_cases req_body) as [(query & n & Hr) | (e & He)].
  2:{ right; right; right. now rewrite (Hunread e He). }
  rewrite handle_catch.
  rewrite (handle_try_readable _ _ _ Hr).
  destruct (given SERP_API_KEY); cbn [negb fst snd].
  - destruct (fetch _) as [|response];
      cbn [await_fetch bind]; [now right; right; right|].
    destruct (response_ok response); cbn [negb].
    + destruct (organic_results_of (body response)) as [results|];
        cbn [bind]; [|now right; right; right].
      destruct (filterM entry_link results) as [kept|];
        cbn [bind]; [|now right; right; right].
      destruct (mapM _ _) as [suppliers|];
        cbn [bind]; [|now right; right; right].
      left. now exists suppliers.
    + right; right; left. now exists (status response).
  - right; left. reflexivity.
Qed.

(** C3: the effective count is 10 when maxResults is absent or at most
    0, maxResults itself when it lies in (0, 20], and 20 above 20; and
    when the request was read and the provider answers with a success
    status, an absent organic results field gives 200 with the empty list,
    and a list of items gives 200 with the items that have a link, cut to
    the count, each mapped by the mapper, in the provider's order. *)
Theorem result_count_and_success_path (req_body : option RequestBody) :
  let b := fields_or_empty req_body in
  let count := resolve_num_dyn StringToNumber ObjectToString in
  count JsUndefined = Normal (10 # 1)
  /\ (forall m : Q, (m <= 0)%Q ->
        count (JsNumber (Finite m)) = Normal (10 # 1))
  /\ (forall m : Q, (0 < m)%Q -> (m <= 20 # 1)%Q ->
        count (JsNumber (Finite m)) = Normal m)
  /\ (forall m : Q, (20 # 1 < m)%Q ->
        count (JsNumber (Finite m)) = Normal (20 # 1))
  /\ (forall query n, read req_body = Normal (query, n) ->
        count (body_maxResults b) = Normal n)
  /\ (given SERP_API_KEY = true ->
      forall query n response,
        read req_body = Normal (query, n) ->
        fetch (search_request SERP_API_KEY query n) = FetchResolves response ->
        response_ok response = true ->
        (body response = BodyObject FieldFalsy ->
         serve req_body
         = ([search_request SERP_API_KEY query n],
            {| out_status := 200; out_body := SuppliersJson [] |}))
        /\ (forall items,
              body response = BodyObject (FieldArray (map EntryItem items)) ->
              exists suppliers,
                serve req_body
                = ([search_request SERP_API_KEY query n],
                   {| out_status := 200;
                      out_body := SuppliersJson suppliers |})
                /\ Forall2
                     (fun item s =>
                        mapper_dyn item (body_country b)
                          (body_requirements b) = Normal s)
                     (firstn (Z.to_nat (Qfloor n)) (filter has_link items))
                     suppliers)).
Proof.
  cbv zeta.
  destruct resolve_num_cases as (_ & Hlow & Hmid & Hhigh).
  assert (Hnum : forall m : Q,
             resolve_num_dyn StringToNumber ObjectToString
               (JsNumber (Finite m))
             = Normal (resolve_num (Some m))).
  { intro m. exact (resolve_num_dyn_number StringToNumber ObjectToString
                      (Some m)). }
  split; [reflexivity|].
  split; [intros m Hm; now rewrite Hnum, (Hlow m Hm)|].
  split; [intros m H0 H20; now rewrite Hnum, (Hmid m H0 H20)|].
  split; [intros m H20; now rewrite Hnum, (Hhigh m H20)|].
  split; [intros query n Hr; now apply read_request_inv in Hr|].
  intros Hk query n response Hr Hf Hok.
  pose proof (handle_try_readable _ _ _ Hr) as Ht.
  rewrite Hk in Ht. cbn [negb] in Ht.
  rewrite Hf in Ht. cbn [await_fetch bind] in Ht.
  rewrite Hok in Ht. cbn [negb] in Ht.
  destruct (read_request_inv _ _ _ _ _ _ Hr) as (Hq & Hn).
  split.
  - intro Hb. rewrite handle_catch, Ht, Hb.
    cbn [organic_results_of bind filterM fst snd].
    unfold slice0. now rewrite firstn_nil.
  - intros items Hb.
    assert (Hpos : (0 <= Qnum n)%Z).
    { destruct (resolve_num_dyn_range _ _ _ _ Hn) as [Hp _].
      destruct n as [a d]. unfold Qlt in Hp. cbn in *. lia. }
    destruct (mapM_map_entry_dyn_items NumberToString ObjectToString
                toLowerCase URL_hostname
                (slice0 n (filter has_link items)) _ _ _ _ Hq)
      as (suppliers & Hm & Hall).
    exists suppliers. split.
    + rewrite handle_catch, Ht, Hb. cbn [organic_results_of bind].
      rewrite filterM_entry_link_items. cbn [bind].
      rewrite slice0_map, Hm. reflexivity.
    + rewrite <- slice0_firstn by exact Hpos. exact Hall.
Qed.

(** X17: on every request body the handler sends at most one request:
    none without the credential and none when reading the body throws,
    exactly one when the credential is set and the body was read.  The
    request goes to the fixed endpoint with engine "google", carries the
    credential, the built query, which is not empty, and a count in
    (0, 20]. *)
Theorem outbound_requests_wellformed (req_body : option RequestBody) :
  (given SERP_API_KEY = false -> fst (serve req_body) = [])
  /\ (forall e, read req_body = Throw e -> fst (serve req_body) = [])
  /\ (given SERP_API_KEY = true ->
      forall query n, read req_body = Normal (query, n) ->
        fst (serve req_body) = [search_request SERP_API_KEY query n])
  /\ (List.length (fst (serve req_body)) <= 1)%nat
  /\ forall r, In r (fst (serve req_body)) ->
       endpoint r = js "https://serpapi.com/search.json"
       /\ engine r = js "google"
       /\ Some (api_key r) = SERP_API_KEY
       /\ api_key r <> []
       /\ read req_body = Normal (q r, num r)
       /\ q r <> []
       /\ (0 < num r)%Q /\ (num r <= 20 # 1)%Q.
Proof.
  rewrite handle_catch. cbn [fst].
  destruct (read_request_cases req_body) as [(query & n & Hr) | (e & He)].
  2:{ rewrite (handle_try_unreadable _ _ He). cbn [fst].
      repeat split; try reflexivity; try (cbn; lia);
        try (intros; congruence); try (now intros r []).
      all: destruct H. }
  rewrite (handle_try_readable _ _ _ Hr).
  destruct (read_request_inv _ _ _ _ _ _ Hr) as (Hq & Hn).
  destruct (given SERP_API_KEY) eqn:Hk; cbn [negb fst].
  - split; [discriminate|]. split; [intros e He; congruence|].
    split; [intros q0 n0 Hr0; congruence|]. split; [cbn; lia|].
    intros r [<- | []]. unfold search_request.
    cbn [endpoint engine api_key q num].
    destruct SERP_API_KEY as [k|]; [|discriminate]. cbn [given] in Hk.
    cbn [or_else]. rewrite Hk.
    repeat split; try assumption.
    + now apply truthy_nonempty.
    + now apply buildQuery_dyn_inv in Hq.
    + now apply resolve_num_dyn_range in Hn.
    + now apply resolve_num_dyn_range in Hn.
  - split; [reflexivity|]. split; [reflexivity|].
    split; [discriminate|]. split; [cbn; lia|]. intros r [].
Qed.

(** X18: on every request body the status of the response is 200, 500 or
    502; it is 200 exactly when the body is a list of suppliers; it is 502
    exactly when the body was read, the credential is set and the provider
    answered with a status outside 200..299; and the body is the "key not
    configured" message exactly when the body was read and the credential
    is missing. *)
Theorem response_status_meaning (req_body : option RequestBody) :
  let r := snd (serve req_body) in
  (out_status r = 200 \/ out_status r = 500 \/ out_status r = 502)
  /\ (out_status r = 200
      <-> exists suppliers, out_body r = SuppliersJson suppliers)
  /\ (out_status r = 502
      <-> given SERP_API_KEY = true
          /\ exists query n response,
               read req_body = Normal (query, n)
               /\ fetch (search_request SERP_API_KEY query n)
                  = FetchResolves response
               /\ response_ok response = false)
  /\ (out_body r = ErrorJson key_missing_message
      <-> given SERP_API_KEY = false
          /\ exists query n, read req_body = Normal (query, n)).
Proof.
  cbv zeta. rewrite handle_catch. cbn [snd].
  assert (Hki : internal_error_message <> key_missing_message).
  { intro H. apply (f_equal (hd 0)) in H. vm_compute in H. discriminate. }
  assert (Hku : forall st, upstream_error_message st <> key_missing_message).
  { intros st H. apply (f_equal (fun l => nth 8 l 0)) in H.
    vm_compute in H. discriminate. }
  assert (Hinj : forall m m', ErrorJson m = ErrorJson m' -> m = m')
    by (intros m m' [= ->]; reflexivity).
  destruct (read_request_cases req_body) as [(query & n & Hr) | (e & He)].
  2:{ rewrite (handle_try_unreadable _ _ He).
      cbn [snd out_status out_body error_json].
      (split; [auto|]); (split; [|split]); split; intro H;
        try discriminate;
        try (destruct H as (x & H); discriminate);
        try (destruct H as (_ & x & y & z & Hx & _); congruence);
        try (destruct H as (_ & x & y & Hx); congruence);
        try (apply Hinj in H; now apply Hki in H). }
  rewrite (handle_try_readable _ _ _ Hr).
  destruct (given SERP_API_KEY) eqn:Hk; cbn [negb snd].
  - destruct (fetch (search_request SERP_API_KEY query n))
      as [|response] eqn:Hf;
      cbn [await_fetch bind];
      [|destruct (response_ok response) eqn:Hok; cbn [negb];
        [destruct (organic_results_of (body response)) as [results|];
         cbn [bind];
         [destruct (filterM entry_link results) as [kept|]; cbn [bind];
          [destruct (mapM _ _) as [suppliers|]; cbn [bind]|]|]|]];
      cbn [out_status out_body error_json];
      (split; [auto|]); (split; [|split]); split; intro H;
      try discriminate; try (destruct H as (x & H); discriminate);
      try (destruct H as (_ & x & y & z & Hx & Hy & Hz);
           rewrite Hr in Hx; injection Hx as <- <-; congruence);
      try (destruct H as (Hx & _); discriminate);
      try (apply Hinj in H; exfalso;
           first [now apply Hki | now apply (Hku _ H)]);
      eauto 10.
  - cbn [out_status out_body error_json].
    (split; [auto|]); (split; [|split]); split; intro H;
      try discriminate; try reflexivity;
      try (destruct H as (x & H); discriminate);
      try (destruct H as (Hx & _); discriminate);
      eauto.
Qed.

End HandleFacts.

(** ** Worked examples on request bodies *)

Example handle_examples :
  handle_ascii None provider_ok (Some numeric_requirements_body)
  = ([], error_json 500 (js "Internal server error"))
  /\ handle_ascii example_key provider_ok (Some numeric_requirements_body)
     = ([], error_json 500 (js "Internal server error"))
  /\ handle_ascii None provider_ok None
     = ([], error_json 500 (js "SerpAPI key not configured on server."))
  /\ snd (handle_ascii example_key provider_no_results None)
     = {| out_status := 200; out_body := SuppliersJson [] |}.
Proof. now vm_compute. Qed.

(** C2 as worded: without the credential the answer is the "key not
    configured" message.  With no credential and the body
    [{ requirements: 123 }] the query is built first, [.trim] is missing on
    the number, and the answer is "Internal server error". *)
Lemma missing_key_is_not_always_reported :
  ~ (forall key fetch req_body,
       given key = false ->
       snd (handle_ascii key fetch req_body)
       = error_json 500 (js "SerpAPI key not configured on server.")).
Proof.
  intro H.
  specialize (H None provider_ok (Some numeric_requirements_body) eq_refl).
  vm_compute in H. discriminate.
Qed.

Lemma handler_failure_responses_witness :
  handle_ascii None provider_ok (Some example_body)
  = ([], error_json 500 (js "SerpAPI key not configured on server."))
  /\ handle_ascii None provider_ok (Some numeric_requirements_body)
     = ([], error_json 500 (js "Internal server error"))
  /\ handle_ascii example_key provider_503 (Some example_body)
     = ([request_of example_key (Some example_request)],
        error_json 502 (js "SerpAPI HTTP error 503"))
  /\ snd (handle_ascii example_key provider_down (Some example_body))
     = error_json 500 (js "Internal server error").
Proof.
  pose (query := buildQuery (req_requirements example_request)
                   (req_country example_request)
                   (req_certifications example_request)).
  split; [|split; [|split]].
  - exact (proj1 (proj2 (handler_failure_responses
                           NumberToString_unused StringToNumber_unused
                           ObjectToString_unused toLowerCase_ascii
                           hostname_http None provider_ok
                           (Some example_body)))
             eq_refl query (2 # 1) eq_refl).
  - exact (proj1 (proj2 (proj2 (proj2
             (handler_failure_responses
                NumberToString_unused StringToNumber_unused
                ObjectToString_unused toLowerCase_ascii
                hostname_http None provider_ok
                (Some numeric_requirements_body)))))
             eq_refl
             (fun s (H : JsNumber (Finite (123 # 1)) = JsString s) =>
                match H in _ = v
                      return match v with JsString _ => False | _ => True end
                with eq_refl => I end)).
  - exact (proj1 (proj2 (proj2 (proj2 (proj2
             (handler_failure_responses
                NumberToString_unused StringToNumber_unused
                ObjectToString_unused toLowerCase_ascii
                hostname_http example_key provider_503
                (Some example_body))))))
             eq_refl query (2 # 1)
             {| status := 503; body := BodyMalformed |}
             eq_refl eq_refl eq_refl).
  - exact (proj1 (proj2 (proj2 (proj2 (proj2 (proj2
             (handler_failure_responses
                NumberToString_unused StringToNumber_unused
                ObjectToString_unused toLowerCase_ascii
                hostname_http example_key provider_down
                (Some example_body)))))))
             FetchError eq_refl).
Defined.

Lemma result_count_and_success_path_witness :
  resolve_num_dyn StringToNumber_unused ObjectToString_unused
    (body_maxResults example_body) = Normal (2 # 1)
  /\ exists suppliers,
       handle_ascii example_key provider_ok (Some example_body)
       = ([request_of example_key (Some example_request)],
          {| out_status := 200; out_body := SuppliersJson suppliers |})
       /\ List.length suppliers = 2%nat.
Proof.
  destruct (result_count_and_success_path
              NumberToString_unused StringToNumber_unused
              ObjectToString_unused toLowerCase_ascii hostname_http
              example_key provider_ok (Some example_body))
    as (_ & _ & Hmid & _ & _ & Hok).
  split.
  - apply (Hmid (2 # 1)); [reflexivity | discriminate].
  - destruct (Hok eq_refl
                (buildQuery (req_requirements example_request)
                   (req_country example_request)
                   (req_certifications example_request))
                (2 # 1)
                {| status := 200;
                   body := BodyObject
                             (FieldArray [EntryItem acme_item;
                                          EntryItem nolink_item;
                                          EntryItem ohio_item;
                                          EntryItem staff_item]) |}
                eq_refl eq_refl eq_refl) as (_ & Hitems).
    destruct (Hitems [acme_item; nolink_item; ohio_item; staff_item] eq_refl)
      as (suppliers & Hh & Hall).
    exists suppliers. split; [exact Hh|].
    symmetry. exact (Forall2_length Hall).
Defined.
